(** * Kenmei knowledge-base API: a model of [kenmei_knowledge_api.py]

    The service answers queries over five in-memory catalogs (cell sites,
    incidents, maintenance windows, products, resolved cases) and offers one
    composite diagnostic endpoint.  The catalogs and the endpoint functions
    are transcribed below; the theorems at the end of the file relate them to
    the statements of the specification. *)

From Stdlib Require Import List ZArith NArith Lia Bool String Ascii Floats.
From Stdlib Require Import Sorted Permutation DecimalString.
Import ListNotations.

Set Warnings "-inexact-float".

(** ** Python strings

    A Python [str] is a sequence of Unicode code points.  Literals are written
    in UTF-8 in this file and decoded by [u], so that [len], slicing and [in]
    count code points as Python does. *)

Definition str := list N.

Fixpoint utf8_bytes (s : string) : list N :=
  match s with
  | EmptyString => []
  | String a t => N_of_ascii a :: utf8_bytes t
  end.

(** [acc] holds the bits read so far of a multi-byte sequence, [need] the
    number of continuation bytes still expected. *)
Fixpoint utf8_decode (acc : N) (need : nat) (bs : list N) : str :=
  match bs with
  | [] => []
  | b :: t =>
      match need with
      | O =>
          if (b <? 128)%N then b :: utf8_decode 0 0 t
          else if (b <? 224)%N then utf8_decode (b - 192) 1 t
          else if (b <? 240)%N then utf8_decode (b - 224) 2 t
          else utf8_decode (b - 240) 3 t
      | S O => (acc * 64 + (b - 128))%N :: utf8_decode 0 0 t
      | S n => utf8_decode (acc * 64 + (b - 128)) n t
      end
  end.

Definition u (s : string) : str := utf8_decode 0 0 (utf8_bytes s).
Arguments u s%_string.

(** [a == b] on strings. *)
Fixpoint str_eqb (a b : str) : bool :=
  match a, b with
  | [], [] => true
  | x :: a', y :: b' => N.eqb x y && str_eqb a' b'
  | _, _ => false
  end.

(** [s.startswith(sub)]. *)
Fixpoint startswith (s sub : str) {struct sub} : bool :=
  match sub, s with
  | [], _ => true
  | x :: sub', y :: s' => N.eqb x y && startswith s' sub'
  | _ :: _, [] => false
  end.

(** [sub in s]: [sub] occurs in [s] as a contiguous run of code points. *)
Fixpoint str_in (sub s : str) : bool :=
  match s with
  | [] => startswith [] sub
  | _ :: s' => startswith s sub || str_in sub s'
  end.

(** [sep.join(parts)]. *)
Fixpoint join (sep : str) (parts : list str) : str :=
  match parts with
  | [] => []
  | p :: rest =>
      match rest with
      | [] => p
      | _ :: _ => p ++ sep ++ join sep rest
      end
  end.

(** [str(n)] for a length, as an f-string renders [{len(xs)}]. *)
Definition str_of_nat (n : nat) : str :=
  u (NilZero.string_of_uint (Nat.to_uint n)).

(** The truth value of a list in [if xs:]. *)
Definition nonempty {A : Type} (xs : list A) : bool :=
  match xs with
  | [] => false
  | _ :: _ => true
  end.

(** [str.lower] is a parameter of the model (section [Service] below): its
    full definition is the Unicode case table.  [lower_latin1] is the instance
    used to run the model on examples; it is [str.lower] on Basic Latin and
    the Latin-1 Supplement, which cover every string of the catalogs. *)
Definition lower_cp (c : N) : N :=
  if ((65 <=? c) && (c <=? 90))%N then (c + 32)%N
  else if ((192 <=? c) && (c <=? 222) && negb (c =? 215))%N then (c + 32)%N
  else c.

Definition lower_latin1 (s : str) : str := map lower_cp s.

(** Code points that [str.lower] leaves alone in any context: ASCII other
    than the capital letters. *)
Definition ascii_uncased (c : N) : bool :=
  ((c <? 65) || ((90 <? c) && (c <? 128)))%N.

(** ** Exceptions

    The endpoints either return a value or raise.  [HTTPException] is the one
    the code raises itself; [KeyError] and [IndexError] are what subscripting
    a dict or a list raises when the key or index is missing. *)

Inductive exn : Type :=
| HTTPException (status_code : Z) (detail : str)
| KeyError (key : str)
| IndexError (index : nat).

Inductive result (A : Type) : Type :=
| Ok (a : A)
| Raise (e : exn).
Arguments Ok {A} a.
Arguments Raise {A} e.

Definition bind {A B : Type} (m : result A) (k : A -> result B) : result B :=
  match m with
  | Ok a => k a
  | Raise e => Raise e
  end.

Notation "x <- m ;; k" := (bind m (fun x => k))
  (at level 61, m at next level, right associativity).

(** [d[key]] on a dict kept as an association list in insertion order. *)
Fixpoint getitem {V : Type} (d : list (str * V)) (key : str) : result V :=
  match d with
  | [] => Raise (KeyError key)
  | (k, v) :: d' => if str_eqb k key then Ok v else getitem d' key
  end.

(** [key in d]. *)
Fixpoint contains_key {V : Type} (d : list (str * V)) (key : str) : bool :=
  match d with
  | [] => false
  | (k, _) :: d' => str_eqb k key || contains_key d' key
  end.

(** [list(d.keys())]. *)
Definition keys {V : Type} (d : list (str * V)) : list str := map fst d.

(** [xs[i]] on a list. *)
Definition index {A : Type} (xs : list A) (i : nat) : result A :=
  match nth_error xs i with
  | Some x => Ok x
  | None => Raise (IndexError i)
  end.

(** A [for] loop whose body may raise, threading the loop's variable. *)
Fixpoint for_each {A S : Type} (xs : list A) (body : S -> A -> result S) (s : S)
  : result S :=
  match xs with
  | [] => Ok s
  | x :: xs' => s' <- body s x ;; for_each xs' body s'
  end.

(** [repr] of a list of plain identifiers-like strings (no quote, backslash or
    control character), as [{list(...)}] is rendered inside an f-string. *)
Definition repr_plain (s : str) : str := u "'" ++ s ++ u "'".
Definition repr_list (xs : list str) : str :=
  u "[" ++ join (u ", ") (map repr_plain xs) ++ u "]".

(** ** Time

    A naive [datetime] is a count of microseconds; [timedelta] likewise. *)

Definition datetime := Z.
Definition timedelta_hours (h : Z) : Z := (h * 3600 * 1000000)%Z.
Definition timedelta_days (d : Z) : Z := (d * 24 * 3600 * 1000000)%Z.

(** ** Data model

    The catalogs hold plain dicts; each record below lists the keys of one
    kind of dict with the types of the values stored there. *)

Module CellSite.
Record t : Type := mk {
  site_id : str;
  site_name : str;
  location : str;
  technologies : list str;
  sectors : Z;
  status : str;
  coverage_radius_km : float;
  coordinates : list (str * float)
}.
End CellSite.

Module ActiveIncident.
Record t : Type := mk {
  incident_id : str;
  issue_type : str;
  affected_area : str;
  affected_sites : list str;
  severity : str;
  start_time : datetime;
  estimated_resolution : option datetime;
  status : str;
  description : str;
  affected_customers : Z
}.
End ActiveIncident.

Module ScheduledMaintenance.
Record t : Type := mk {
  maintenance_id : str;
  sites : list str;
  scheduled_start : datetime;
  scheduled_end : datetime;
  maintenance_type : str;
  impact : str;
  affected_services : list str;
  notification_sent : bool
}.
End ScheduledMaintenance.

Module KenmeiProduct.
Record t : Type := mk {
  product_name : str;
  category : str;
  description : str;
  use_cases : list str;
  benefits : list str;
  url : str
}.
End KenmeiProduct.

Module SimilarCase.
Record t : Type := mk {
  case_id : str;
  issue_description : str;
  root_cause : str;
  solution_applied : str;
  resolution_time_hours : float;
  success_rate : float;
  location_type : str
}.
End SimilarCase.

Module DiagnosticRequest.
Record t : Type := mk {
  location : str;
  issue_type : str;
  symptoms : list str;
  network_technology : option str
}.
End DiagnosticRequest.

Module DiagnosticResponse.
Record t : Type := mk {
  context_found : bool;
  cell_sites_nearby : list CellSite.t;
  active_incidents : list ActiveIncident.t;
  scheduled_maintenance : list ScheduledMaintenance.t;
  similar_cases : list SimilarCase.t;
  recommended_products : list KenmeiProduct.t;
  additional_context : str
}.
End DiagnosticResponse.

(** ** Catalogs that do not depend on the clock *)

Definition CELL_SITES_DB : list (str * list CellSite.t) :=
  [ (u "valencia",
      [ CellSite.mk (u "VLC-001") (u "Valencia Centro - Ayuntamiento")
          (u "Plaza del Ayuntamiento, Valencia")
          [u "4G"; u "5G NSA"; u "5G SA"] 3 (u "active") 1.2
          [(u "lat", 39.4699%float); (u "lon", (-0.3763)%float)];
        CellSite.mk (u "VLC-002") (u "Valencia Centro - Xàtiva")
          (u "Calle Xàtiva, Valencia")
          [u "4G"; u "5G NSA"] 3 (u "degraded") 0.8
          [(u "lat", 39.4665%float); (u "lon", (-0.3769)%float)];
        CellSite.mk (u "VLC-003") (u "Valencia Centro - Colón")
          (u "Plaza de Colón, Valencia")
          [u "4G"; u "5G NSA"; u "5G SA"] 3 (u "active") 1.5
          [(u "lat", 39.4731%float); (u "lon", (-0.3719)%float)] ]);
    (u "paterna",
      [ CellSite.mk (u "PTR-001") (u "Paterna Polígono Industrial")
          (u "Polígono Industrial Vara de Quart, Paterna")
          [u "4G"; u "5G NSA"] 3 (u "active") 2.0
          [(u "lat", 39.5167%float); (u "lon", (-0.4500)%float)];
        CellSite.mk (u "PTR-002") (u "Paterna Centro Tecnológico")
          (u "Parc Tecnològic, Paterna")
          [u "4G"; u "5G NSA"; u "5G SA"] 3 (u "active") 1.8
          [(u "lat", 39.5200%float); (u "lon", (-0.4450)%float)] ]);
    (u "madrid",
      [ CellSite.mk (u "MAD-A3-280") (u "A3 Autovía - KM 280")
          (u "Autovía A3, KM 280")
          [u "4G"; u "VoLTE"] 3 (u "active") 3.5
          [(u "lat", 39.7500%float); (u "lon", (-1.2000)%float)] ]);
    (u "barcelona",
      [ CellSite.mk (u "BCN-M01") (u "Barcelona Metro L1 - Arc Triomf")
          (u "Metro L1, Estación Arc de Triomf")
          [u "4G"; u "VoLTE"] 2 (u "active") 0.3
          [(u "lat", 41.3908%float); (u "lon", 2.1808%float)] ]) ].

Definition KENMEI_PRODUCTS_DB : list KenmeiProduct.t :=
  [ KenmeiProduct.mk
      (u "Kenmei AI Agents - Anomaly Detection")
      (u "AI Agents")
      (u "Detección automática de anomalías en redes móviles usando Machine Learning. Identifica patrones anormales en KPIs antes de que afecten a clientes.")
      [ u "Detección temprana de degradación de cobertura";
        u "Identificación de interferencias (PCI conflicts, RSI)";
        u "Predicción de fallos de handover";
        u "Alertas automáticas de congestión de red" ]
      [ u "Reduce MTTR (Mean Time To Repair) en 60%";
        u "Detecta problemas 24-48h antes que métodos tradicionales";
        u "Automatiza el 70% de diagnósticos de primer nivel" ]
      (u "https://www.kenmei.ai/solutions/ai-products/anomalies");
    KenmeiProduct.mk
      (u "Kenmei Geolocation - Virtual Drive Testing")
      (u "AI Products")
      (u "Convierte datos de usuarios reales en análisis geo-localizado de calidad de red. Elimina la necesidad de drive tests físicos.")
      [ u "Validación de rollout 5G sin coste de drive testing";
        u "Mapas de calor de cobertura en tiempo real";
        u "Análisis de rutas (carreteras, ferrocarril, metro)";
        u "Optimización de cobertura indoor" ]
      [ u "Reduce costes de drive testing en 80%";
        u "Cobertura 100x mayor que drive test manual";
        u "Datos actualizados continuamente vs snapshots" ]
      (u "https://www.kenmei.ai/solutions/ai-products/geolocation");
    KenmeiProduct.mk
      (u "Kenmei Telco Fabric")
      (u "Data Fabric")
      (u "Unifica datos de radio, core y operaciones en una capa única query-ready. Elimina silos de datos entre vendors.")
      [ u "Correlación de eventos entre RAN y Core";
        u "Queries cross-vendor en segundos";
        u "Dashboards unificados de KPIs multi-tecnología";
        u "Data lake telco con semantic layer" ]
      [ u "Reduce tiempo de troubleshooting de horas a minutos";
        u "Elimina 80% de trabajo manual de correlación de logs";
        u "Habilita uso de AI sobre datos unificados" ]
      (u "https://www.kenmei.ai/solutions/telco-fabric");
    KenmeiProduct.mk
      (u "Kenmei Interference Detection")
      (u "AI Products")
      (u "Detecta y diagnostica automáticamente interferencias en redes móviles (PCI conflicts, inter-cell, external).")
      [ u "Detección de PCI conflicts en rollout 5G";
        u "Identificación de interferencias externas (radar, military)";
        u "Análisis de inter-cell interference";
        u "Optimización automática de neighbor lists" ]
      [ u "Identifica >95% de interferencias automáticamente";
        u "Recomienda acciones correctivas específicas";
        u "Integra con Telco Fabric para análisis multi-capa" ]
      (u "https://www.kenmei.ai/solutions/ai-products/interference") ].

Definition SIMILAR_CASES_DB : list SimilarCase.t :=
  [ SimilarCase.mk (u "CASE-5G-0782")
      (u "Pérdida de cobertura 5G en zona urbana con fallback a 4G")
      (u "PCI conflict entre dos sites cercanos debido a expansion de red. Overshooting de antena recién instalada")
      (u "Ajuste de tilt mecánico de -2° en site VLC-002 sector 1 + reconfiguración de PCI de 156 a 289. Optimización MLB para balanceo de carga.")
      8.5 0.98 (u "urban");
    SimilarCase.mk (u "CASE-5G-0654")
      (u "Fluctuación constante de señal 5G en polígono industrial")
      (u "Interferencia externa de radar meteorológico en banda n78 (3.5 GHz). Kenmei Interference Detection identificó patrón periódico cada 12 segundos.")
      (u "Reconfiguración de carrier aggregation para evitar frecuencias afectadas. Activación de filtrado adaptativo. Escalado a autoridad de telecomunicaciones para coordinación de frecuencias.")
      72.0 0.92 (u "industrial");
    SimilarCase.mk (u "CASE-4G-1023")
      (u "Baja velocidad de datos en autovía, calls OK pero datos lentos")
      (u "Congestión de backhaul en site A3-KM280. Saturación de enlace microwave en horas pico (95% utilización). Kenmei AI detectó patrón de degradación gradual.")
      (u "Upgrade de backhaul de 1 Gbps a 10 Gbps fiber. Implementación de QoS en S1 interface. Activación de carrier aggregation para offload a banda adicional.")
      120.0 1.0 (u "highway");
    SimilarCase.mk (u "CASE-VLT-0445")
      (u "Llamadas caídas en metro/túneles")
      (u "Handover failure entre outdoor macro cell y indoor DAS system. Misconfiguration en A3 event offset. Kenmei detectó RLF rate >15%.")
      (u "Optimización de neighbor list, ajuste de A3 offset de 3dB a 1dB, configuración de TTT (Time To Trigger) de 320ms a 160ms. Activación de CS Fallback optimization.")
      12.0 0.95 (u "underground") ].

(** ** Sorting

    [xs.sort(key=k, reverse=True)]: Python's sort is stable and compares keys
    with [<] only; with [reverse=True] elements with equal keys keep their
    original order.  On keys that [<] orders totally every such sort gives the
    same list; it is written here as a stable insertion: an element moves
    past exactly those that are strictly greater. *)

Section SortDesc.
Context {A : Type} (key : A -> float).

Fixpoint insert_desc (x : A) (xs : list A) : list A :=
  match xs with
  | [] => [x]
  | y :: ys =>
      if PrimFloat.ltb (key x) (key y) then y :: insert_desc x ys
      else x :: y :: ys
  end.

Fixpoint sort_desc (xs : list A) : list A :=
  match xs with
  | [] => []
  | x :: xs' => insert_desc x (sort_desc xs')
  end.
End SortDesc.

(** ** The service *)

Section Service.

(** [str.lower]. *)
Variable lower : str -> str.

(** The readings of [datetime.now()] while the module body runs: reading
    [k] is the [k]-th call, in source order. *)
Variable boot : nat -> datetime.

Definition ACTIVE_INCIDENTS_DB : list ActiveIncident.t :=
  [ ActiveIncident.mk (u "INC-2024-1142") (u "interference")
      (u "Valencia Centro - Plaza Ayuntamiento")
      [u "VLC-001"; u "VLC-002"] (u "high")
      (boot 0 - timedelta_hours 18)%Z
      (Some (boot 1 + timedelta_hours 6)%Z)
      (u "in_progress")
      (u "PCI conflict detectado entre site VLC-001 sector 2 y VLC-002 sector 1 causando interferencia co-channel en banda 5G NSA. Kenmei AI ha identificado overshooting en VLC-002.")
      1250;
    ActiveIncident.mk (u "INC-2024-1138") (u "coverage")
      (u "Paterna - Polígono Industrial Vara de Quart")
      [u "PTR-001"] (u "medium")
      (boot 2 - timedelta_days 7)%Z
      (Some (boot 3 + timedelta_hours 48)%Z)
      (u "investigating")
      (u "Degradación gradual de señal 5G detectada por Kenmei Geolocation. Análisis de drive test virtual muestra caída de RSRP en -10 dBm en última semana. Probable misconfiguration de tilt de antena.")
      450 ].

Definition SCHEDULED_MAINTENANCE_DB : list ScheduledMaintenance.t :=
  [ ScheduledMaintenance.mk (u "MAINT-2024-0891") [u "VLC-002"]
      (boot 4 - timedelta_hours 20)%Z
      (boot 5 + timedelta_hours 4)%Z
      (u "Software upgrade + antenna optimization")
      (u "Posibles cortes intermitentes de 5G NSA, fallback a 4G disponible")
      [u "5G NSA"] true ].

(** *** GET /network/sites *)

Definition get_cell_sites (location : str) : result (list CellSite.t) :=
  let location_key := lower location in
  if negb (contains_key CELL_SITES_DB location_key) then
    Raise (HTTPException 404
             (u "No cell sites found for location: " ++ location
                ++ u ". Available: " ++ repr_list (keys CELL_SITES_DB)))
  else getitem CELL_SITES_DB location_key.

(** *** GET /network/incidents

    The two [if] blocks of the function, each a filter over the list the
    previous one left.  An [Optional[str]] is true in [if x:] when it is a
    string with at least one character: [None] and the empty string both skip
    the block. *)

Definition filter_by_location (location : option str)
    (incidents : list ActiveIncident.t) : list ActiveIncident.t :=
  match location with
  | Some ((_ :: _) as loc) =>
      filter (fun inc =>
                str_in (lower loc) (lower (ActiveIncident.affected_area inc)))
             incidents
  | _ => incidents
  end.

Definition filter_by_severity (severity : option str)
    (incidents : list ActiveIncident.t) : list ActiveIncident.t :=
  match severity with
  | Some ((_ :: _) as sev) =>
      filter (fun inc => str_eqb (ActiveIncident.severity inc) (lower sev))
             incidents
  | _ => incidents
  end.

Definition get_active_incidents (location severity : option str)
  : list ActiveIncident.t :=
  let incidents := ACTIVE_INCIDENTS_DB in
  let incidents := filter_by_location location incidents in
  let incidents := filter_by_severity severity incidents in
  incidents.

(** *** GET /network/maintenance

    [now] is the reading of [datetime.now()] inside the call; it is read
    only when [active_only] holds. *)

Definition is_active (now : datetime) (m : ScheduledMaintenance.t) : bool :=
  ((ScheduledMaintenance.scheduled_start m <=? now)
   && (now <=? ScheduledMaintenance.scheduled_end m))%Z.

Definition get_scheduled_maintenance (now : datetime) (active_only : bool)
  : list ScheduledMaintenance.t :=
  let maintenance := SCHEDULED_MAINTENANCE_DB in
  if active_only then filter (is_active now) maintenance else maintenance.

(** *** GET /solutions/products *)

Definition get_kenmei_products (category : option str)
  : list KenmeiProduct.t :=
  let products := KENMEI_PRODUCTS_DB in
  match category with
  | Some ((_ :: _) as cat) =>
      filter (fun p => str_in (lower cat) (lower (KenmeiProduct.category p)))
             products
  | _ => products
  end.

(** *** GET /solutions/cases *)

Definition get_similar_cases (location_type : option str)
  : list SimilarCase.t :=
  let cases := SIMILAR_CASES_DB in
  let cases :=
    match location_type with
    | Some ((_ :: _) as lt) =>
        filter (fun c => str_eqb (SimilarCase.location_type c) (lower lt)) cases
    | _ => cases
    end in
  sort_desc SimilarCase.success_rate cases.

(** *** POST /diagnostics/analyze

    One definition per block of the function, named after the local
    variable the block computes; [analyze_diagnostic] runs them in the
    order of the source. *)

Definition analyze_cell_sites (location_key : str)
  : result (list CellSite.t) :=
  for_each (keys CELL_SITES_DB)
    (fun cell_sites key =>
       if str_in key location_key || str_in location_key key then
         bucket <- getitem CELL_SITES_DB key ;;
         Ok (cell_sites ++ bucket)
       else Ok cell_sites)
    [].

Definition analyze_active_incidents (location_key : str)
  : list ActiveIncident.t :=
  filter (fun inc =>
            str_in location_key (lower (ActiveIncident.affected_area inc)))
         ACTIVE_INCIDENTS_DB.

Definition analyze_scheduled_maintenance (now : datetime)
  : list ScheduledMaintenance.t :=
  filter (is_active now) SCHEDULED_MAINTENANCE_DB.

Definition analyze_location_type (location_key : str) : str :=
  let location_type := u "urban" in
  if str_in (u "poligono") location_key
     || str_in (u "industrial") location_key
  then u "industrial"
  else if str_in (u "autovia") location_key
          || str_in (u "carretera") location_key
  then u "highway"
  else if str_in (u "metro") location_key
          || str_in (u "tunel") location_key
  then u "underground"
  else location_type.

Definition analyze_similar_cases (location_type : str)
  : list SimilarCase.t :=
  sort_desc SimilarCase.success_rate
    (filter (fun c => str_eqb (SimilarCase.location_type c) location_type)
            SIMILAR_CASES_DB).

Definition analyze_recommended_products (request : DiagnosticRequest.t)
  : result (list KenmeiProduct.t) :=
  let recommended_products := [] in
  let issue_lower := lower (DiagnosticRequest.issue_type request) in
  recommended_products <-
    (if str_in (u "interference") issue_lower
        || str_in (u "signal")
             (lower (join (u " ") (DiagnosticRequest.symptoms request)))
     then p <- index KENMEI_PRODUCTS_DB 3 ;; Ok (recommended_products ++ [p])
     else Ok recommended_products) ;;
  recommended_products <-
    (if str_in (u "coverage") issue_lower
        || str_in (u "cobertura") issue_lower
     then p <- index KENMEI_PRODUCTS_DB 1 ;; Ok (recommended_products ++ [p])
     else Ok recommended_products) ;;
  p <- index KENMEI_PRODUCTS_DB 0 ;;
  Ok (recommended_products ++ [p]).

Definition sites_line (cell_sites : list CellSite.t) : str :=
  u "Hay " ++ str_of_nat (List.length cell_sites) ++ u " sites en el área: "
    ++ join (u ", ") (map CellSite.site_id cell_sites).

Definition incidents_line (active_incidents : list ActiveIncident.t) : str :=
  u "⚠️ ALERTA: Hay " ++ str_of_nat (List.length active_incidents)
    ++ u " incidencias activas en la zona".

Definition incident_line (inc : ActiveIncident.t) : str :=
  u "  - " ++ ActiveIncident.incident_id inc ++ u ": "
    ++ firstn 150 (ActiveIncident.description inc) ++ u "...".

Definition maintenance_line : str :=
  u "🔧 Hay mantenimiento programado activo que puede estar afectando".

Definition cases_line (similar_cases : list SimilarCase.t) : str :=
  u "📚 Se encontraron " ++ str_of_nat (List.length similar_cases)
    ++ u " casos similares resueltos con éxito".

Definition NO_CONTEXT : str := u "No hay contexto adicional disponible".

Definition analyze_additional_context
    (cell_sites : list CellSite.t)
    (active_incidents : list ActiveIncident.t)
    (scheduled_maintenance : list ScheduledMaintenance.t)
    (similar_cases : list SimilarCase.t) : str :=
  let context_parts := [] in
  let context_parts :=
    if nonempty cell_sites then context_parts ++ [sites_line cell_sites]
    else context_parts in
  let context_parts :=
    if nonempty active_incidents then
      fold_left (fun parts inc => parts ++ [incident_line inc])
                active_incidents
                (context_parts ++ [incidents_line active_incidents])
    else context_parts in
  let context_parts :=
    if nonempty scheduled_maintenance then context_parts ++ [maintenance_line]
    else context_parts in
  let context_parts :=
    if nonempty similar_cases then context_parts ++ [cases_line similar_cases]
    else context_parts in
  if nonempty context_parts then join [10%N] context_parts else NO_CONTEXT.

Definition analyze_diagnostic (now : datetime) (request : DiagnosticRequest.t)
  : result DiagnosticResponse.t :=
  let location_key := lower (DiagnosticRequest.location request) in
  cell_sites <- analyze_cell_sites location_key ;;
  let active_incidents := analyze_active_incidents location_key in
  let scheduled_maintenance := analyze_scheduled_maintenance now in
  let location_type := analyze_location_type location_key in
  let similar_cases := analyze_similar_cases location_type in
  recommended_products <- analyze_recommended_products request ;;
  let additional_context :=
    analyze_additional_context cell_sites active_incidents
      scheduled_maintenance similar_cases in
  Ok (DiagnosticResponse.mk
        ((0 <? List.length cell_sites) || (0 <? List.length active_incidents))%nat
        cell_sites
        active_incidents
        scheduled_maintenance
        (firstn 3 similar_cases)
        recommended_products
        additional_context).

(** *** Routing

    The route table of the application: one constructor per decorated
    handler that takes a query, and the value the handler returns. *)

Inductive Call : Type :=
| GetCellSites (location : str)
| GetActiveIncidents (location severity : option str)
| GetScheduledMaintenance (active_only : bool)
| GetKenmeiProducts (category : option str)
| GetSimilarCases (location_type : option str)
| AnalyzeDiagnostic (request : DiagnosticRequest.t).

Inductive Body : Type :=
| CellSites (xs : list CellSite.t)
| ActiveIncidents (xs : list ActiveIncident.t)
| Maintenance (xs : list ScheduledMaintenance.t)
| Products (xs : list KenmeiProduct.t)
| Cases (xs : list SimilarCase.t)
| Diagnostic (r : DiagnosticResponse.t).

Definition serve (now : datetime) (c : Call) : result Body :=
  match c with
  | GetCellSites location =>
      xs <- get_cell_sites location ;; Ok (CellSites xs)
  | GetActiveIncidents location severity =>
      Ok (ActiveIncidents (get_active_incidents location severity))
  | GetScheduledMaintenance active_only =>
      Ok (Maintenance (get_scheduled_maintenance now active_only))
  | GetKenmeiProducts category =>
      Ok (Products (get_kenmei_products category))
  | GetSimilarCases location_type =>
      Ok (Cases (get_similar_cases location_type))
  | AnalyzeDiagnostic request =>
      r <- analyze_diagnostic now request ;; Ok (Diagnostic r)
  end.

End Service.

(** ** GET /

    The health check, and the path each handler of the route table is
    registered under by its decorator. *)

Module Root.
Record t : Type := mk {
  service : str;
  status : str;
  version : str;
  endpoints : list str
}.
End Root.

Definition read_root : Root.t :=
  Root.mk (u "Kenmei Knowledge Base API") (u "online") (u "1.0.0")
    [ u "/network/sites";
      u "/network/incidents";
      u "/network/maintenance";
      u "/solutions/products";
      u "/solutions/cases";
      u "/diagnostics/analyze" ].

Definition route_path (c : Call) : str :=
  match c with
  | GetCellSites _ => u "/network/sites"
  | GetActiveIncidents _ _ => u "/network/incidents"
  | GetScheduledMaintenance _ => u "/network/maintenance"
  | GetKenmeiProducts _ => u "/solutions/products"
  | GetSimilarCases _ => u "/solutions/cases"
  | AnalyzeDiagnostic _ => u "/diagnostics/analyze"
  end.

(** ** Concrete inputs used to run the model

    A clock that read the same instant at every call while the module was
    loading, and a request builder. *)

Definition boot0 : nat -> datetime := fun _ => 1730000000000000%Z.
Definition req (location issue_type : string) (symptoms : list str)
  : DiagnosticRequest.t :=
  DiagnosticRequest.mk (u location) (u issue_type) symptoms None.
Arguments req (location issue_type)%_string symptoms%_list.


(** ** Specification vocabulary *)

(** [sub] occurs in [s]. *)
Definition substring (sub s : str) : Prop :=
  exists pre post, s = pre ++ sub ++ post.

(** [xs] is contained in [ys] and [ys] has an element that [xs] lacks. *)
Definition strict_subset {A : Type} (xs ys : list A) : Prop :=
  incl xs ys /\ ~ incl ys xs.

(** [a] comes no later than [b] in descending order of [key]. *)
Definition key_ge {A : Type} (key : A -> float) (a b : A) : Prop :=
  PrimFloat.leb (key b) (key a) = true.

(** Descending order of success rate. *)
Definition rate_ge : SimilarCase.t -> SimilarCase.t -> Prop :=
  key_ge SimilarCase.success_rate.

(** The cases of [xs] whose success rate equals that of [k], in order. *)
Definition same_rate_as (k : SimilarCase.t) (xs : list SimilarCase.t)
  : list SimilarCase.t :=
  filter (fun c => PrimFloat.eqb (SimilarCase.success_rate c)
                                 (SimilarCase.success_rate k)) xs.

(** The boolean test behind the order facts that sorting relies on, for the
    keys of a given list: [<] implies [<=], two keys are comparable, [<=] is
    transitive, and a key strictly below another is not equal to it. *)
Definition keys_ordered {A : Type} (key : A -> float) (U : list A) : bool :=
  forallb (fun x =>
    forallb (fun y =>
      (if PrimFloat.ltb (key x) (key y)
       then PrimFloat.leb (key x) (key y) && negb (PrimFloat.eqb (key x) (key y))
       else PrimFloat.leb (key y) (key x))
      && forallb (fun z =>
           implb (PrimFloat.leb (key z) (key y) && PrimFloat.leb (key y) (key x))
                 (PrimFloat.leb (key z) (key x))
           && implb (PrimFloat.eqb (key x) (key z) && PrimFloat.eqb (key y) (key z))
                    (negb (PrimFloat.ltb (key x) (key y)))) U) U) U.


(** * Facts about strings *)

Lemma str_eqb_eq (a b : str) : str_eqb a b = true <-> a = b.
Proof.
  revert b; induction a as [|x a IH]; intros [|y b]; simpl;
    try (split; [discriminate | discriminate]); try tauto.
  rewrite andb_true_iff, N.eqb_eq, IH.
  split; [intros [-> ->]; reflexivity | intros [= -> ->]; auto].
Qed.

Lemma str_eqb_refl (a : str) : str_eqb a a = true.
Proof. now apply str_eqb_eq. Qed.

Lemma str_eqb_neq (a b : str) : str_eqb a b = false <-> a <> b.
Proof.
  rewrite <- str_eqb_eq. destruct (str_eqb a b); split; congruence.
Qed.

Lemma startswith_spec (s sub : str) :
  startswith s sub = true <-> exists post, s = sub ++ post.
Proof.
  revert s; induction sub as [|x sub IH]; intros s; simpl.
  - split; [exists s; reflexivity | reflexivity].
  - destruct s as [|y s].
    + split; [discriminate | intros [post H]; discriminate].
    + rewrite andb_true_iff, N.eqb_eq, IH. split.
      * intros [-> [post ->]]. now exists post.
      * intros [post [= -> ->]]. split; [reflexivity | now exists post].
Qed.

Lemma str_in_spec (sub s : str) : str_in sub s = true <-> substring sub s.
Proof.
  unfold substring. induction s as [|c s IH].
  - cbn [str_in]. rewrite startswith_spec. split.
    + intros [post H]. exists [], post. exact H.
    + intros [pre [post H]]. symmetry in H.
      apply app_eq_nil in H as [-> H]. exists post. now rewrite H.
  - cbn [str_in]. rewrite orb_true_iff, startswith_spec, IH. split.
    + intros [[post H] | [pre [post H]]].
      * exists [], post. exact H.
      * exists (c :: pre), post. now rewrite H.
    + intros [[|c' pre] [post H]].
      * left. exists post. exact H.
      * right. injection H as _ H. now exists pre, post.
Qed.

Lemma str_in_nil (s : str) : str_in [] s = true.
Proof. apply str_in_spec. now exists [], s. Qed.

Lemma join_snoc (sep : str) (ps : list str) (x : str) :
  ps <> [] -> join sep (ps ++ [x]) = join sep ps ++ sep ++ x.
Proof.
  induction ps as [|p ps IH]; [congruence|]. intros _.
  destruct ps as [|q ps]; [reflexivity|].
  change (join sep ((p :: q :: ps) ++ [x]))
    with (p ++ sep ++ join sep ((q :: ps) ++ [x])).
  rewrite IH by discriminate.
  change (join sep (p :: q :: ps)) with (p ++ sep ++ join sep (q :: ps)).
  now rewrite <- !app_assoc.
Qed.

Lemma join_ends_with (sep : str) (ps : list str) (x : str) :
  exists pre, join sep (ps ++ [x]) = pre ++ x.
Proof.
  destruct ps as [|p ps].
  - now exists [].
  - exists (join sep (p :: ps) ++ sep).
    rewrite join_snoc by discriminate. now rewrite <- app_assoc.
Qed.

Lemma last_app_nonempty {A : Type} (xs ys : list A) (d : A) :
  ys <> [] -> last (xs ++ ys) d = last ys d.
Proof.
  intros H. induction xs as [|x xs IH]; [reflexivity|].
  cbn [app last]. destruct (xs ++ ys) eqn:E; [|exact IH].
  apply app_eq_nil in E as [_ ->]. congruence.
Qed.

Lemma lower_latin1_uncased (s : str) :
  forallb ascii_uncased s = true -> lower_latin1 s = s.
Proof.
  induction s as [|c s IH]; [reflexivity|]. cbn [forallb].
  rewrite andb_true_iff. intros [Hc Hs]. cbn [lower_latin1 map].
  fold (lower_latin1 s). rewrite (IH Hs). f_equal.
  unfold ascii_uncased in Hc. unfold lower_cp.
  rewrite orb_true_iff, andb_true_iff, !N.ltb_lt in Hc.
  destruct ((65 <=? c) && (c <=? 90))%N eqn:E1.
  - rewrite andb_true_iff, !N.leb_le in E1. lia.
  - destruct ((192 <=? c) && (c <=? 222) && negb (c =? 215))%N eqn:E2;
      [|reflexivity].
    rewrite !andb_true_iff, !N.leb_le in E2. lia.
Qed.

(** * Facts about filters *)

Lemma filter_andb {A : Type} (f g : A -> bool) (xs : list A) :
  filter g (filter f xs) = filter (fun x => f x && g x) xs.
Proof.
  induction xs as [|x xs IH]; [reflexivity|]. cbn [filter].
  destruct (f x); cbn [filter andb]; [destruct (g x)|]; now rewrite IH.
Qed.

Lemma filter_swap {A : Type} (f g : A -> bool) (xs : list A) :
  filter g (filter f xs) = filter f (filter g xs).
Proof.
  rewrite !filter_andb. apply filter_ext. intros x. apply andb_comm.
Qed.


(** * Facts about dicts and loops *)

Lemma Ok_inj {A : Type} (a b : A) : Ok a = Ok b -> a = b.
Proof. now intros [= ->]. Qed.

Lemma contains_key_in {V : Type} (d : list (str * V)) (key : str) :
  contains_key d key = true <-> In key (keys d).
Proof.
  induction d as [|[k v] d IH]; cbn [contains_key keys map In fst].
  - split; [discriminate | tauto].
  - rewrite orb_true_iff, str_eqb_eq. unfold keys in IH. now rewrite IH.
Qed.

Lemma getitem_in {V : Type} (d : list (str * V)) (key : str) (v : V) :
  NoDup (keys d) -> In (key, v) d -> getitem d key = Ok v.
Proof.
  induction d as [|[k w] d IH]; cbn [keys map fst getitem In]; [tauto|].
  intros Hnd [H | H].
  - injection H as -> ->. now rewrite str_eqb_refl.
  - inversion Hnd as [|? ? Hk Hd]; subst.
    destruct (str_eqb k key) eqn:E.
    + apply str_eqb_eq in E. subst k. exfalso. apply Hk.
      change key with (fst (key, v)). now apply in_map.
    + now apply IH.
Qed.

Lemma getitem_missing {V : Type} (d : list (str * V)) (key : str) :
  contains_key d key = false -> getitem d key = Raise (KeyError key).
Proof.
  induction d as [|[k w] d IH]; cbn [contains_key getitem]; [reflexivity|].
  rewrite orb_false_iff. intros [-> H]. now apply IH.
Qed.

(** The loop over the keys of a dict that extends an accumulator with the
    buckets of the selected keys concatenates those buckets in dict order. *)
Lemma for_each_selected_keys {V : Type} (d : list (str * list V))
    (sel : str -> bool) :
  NoDup (keys d) ->
  for_each (keys d)
    (fun acc key =>
       if sel key then bucket <- getitem d key ;; Ok (acc ++ bucket)
       else Ok acc) []
  = Ok (flat_map snd (filter (fun b => sel (fst b)) d)).
Proof.
  intros Hnd.
  enough (G : forall l acc, incl l d ->
            for_each (keys l)
              (fun acc key =>
                 if sel key then bucket <- getitem d key ;; Ok (acc ++ bucket)
                 else Ok acc) acc
            = Ok (acc ++ flat_map snd (filter (fun b => sel (fst b)) l))).
  { apply (G d []). apply incl_refl. }
  induction l as [|[k v] l IH]; intros acc Hl.
  - cbn. now rewrite app_nil_r.
  - cbn [keys map fst for_each filter].
    assert (Hkv : In (k, v) d) by (apply Hl; now left).
    assert (Hl' : incl l d) by (intros x Hx; apply Hl; now right).
    destruct (sel k).
    + rewrite (getitem_in d k v Hnd Hkv). cbn [bind].
      fold (keys l). rewrite (IH _ Hl'). cbn [flat_map snd].
      now rewrite app_assoc.
    + cbn [bind]. fold (keys l). now rewrite (IH _ Hl').
Qed.

(** * Facts about the sort *)

Section SortFacts.
Context {A : Type} (key : A -> float).

Lemma insert_desc_perm (x : A) (xs : list A) :
  Permutation (insert_desc key x xs) (x :: xs).
Proof.
  induction xs as [|y ys IH]; cbn [insert_desc]; [apply Permutation_refl|].
  destruct (PrimFloat.ltb (key x) (key y)); [|apply Permutation_refl].
  eapply perm_trans; [apply perm_skip, IH | apply perm_swap].
Qed.

Lemma sort_desc_perm (xs : list A) : Permutation (sort_desc key xs) xs.
Proof.
  induction xs as [|x xs IH]; cbn [sort_desc]; [constructor|].
  eapply perm_trans; [apply insert_desc_perm | now apply perm_skip].
Qed.

Lemma sort_desc_in (xs : list A) (x : A) :
  In x (sort_desc key xs) <-> In x xs.
Proof.
  split; apply Permutation_in;
    [apply sort_desc_perm | apply Permutation_sym, sort_desc_perm].
Qed.


(** What [keys_ordered] checks, as propositions. *)
Lemma keys_ordered_spec (U : list A) :
  keys_ordered key U = true ->
  forall x y, In x U -> In y U ->
    (PrimFloat.ltb (key x) (key y) = true ->
       PrimFloat.leb (key x) (key y) = true
       /\ PrimFloat.eqb (key x) (key y) = false)
    /\ (PrimFloat.ltb (key x) (key y) = false ->
          PrimFloat.leb (key y) (key x) = true)
    /\ forall z, In z U ->
         (PrimFloat.leb (key z) (key y) = true ->
          PrimFloat.leb (key y) (key x) = true ->
          PrimFloat.leb (key z) (key x) = true)
         /\ (PrimFloat.eqb (key x) (key z) = true ->
             PrimFloat.eqb (key y) (key z) = true ->
             PrimFloat.ltb (key x) (key y) = false).
Proof.
  unfold keys_ordered. intros H x y Hx Hy.
  rewrite forallb_forall in H. specialize (H x Hx).
  rewrite forallb_forall in H. specialize (H y Hy).
  apply andb_true_iff in H as [H1 H2].
  split; [|split].
  - intros E. rewrite E in H1. apply andb_true_iff in H1 as [H1 H1'].
    split; [exact H1 | now apply negb_true_iff].
  - intros E. now rewrite E in H1.
  - intros z Hz. rewrite forallb_forall in H2. specialize (H2 z Hz).
    apply andb_true_iff in H2 as [H2 H3]. split.
    + intros E1 E2. now rewrite E1, E2 in H2.
    + intros E1 E2. rewrite E1, E2 in H3. now apply negb_true_iff.
Qed.

Variable U : list A.
Hypothesis U_ordered : keys_ordered key U = true.

Lemma insert_desc_sorted (x : A) (xs : list A) :
  In x U -> incl xs U ->
  StronglySorted (key_ge key) xs ->
  StronglySorted (key_ge key) (insert_desc key x xs).
Proof.
  intros Hx Hxs Hs. induction Hs as [|y ys Hs IH Hy]; cbn [insert_desc].
  - constructor; constructor.
  - assert (HyU : In y U) by (apply Hxs; now left).
    assert (HysU : incl ys U) by (intros z Hz; apply Hxs; now right).
    destruct (keys_ordered_spec U U_ordered x y Hx HyU) as (Hlt & Hge & Htr).
    destruct (PrimFloat.ltb (key x) (key y)) eqn:E.
    + constructor; [now apply IH|].
      apply Forall_forall. intros z Hz.
      apply (Permutation_in _ (insert_desc_perm x ys)) in Hz.
      destruct Hz as [<- | Hz].
      * now apply Hlt.
      * rewrite Forall_forall in Hy. now apply Hy.
    + constructor; [now constructor|].
      constructor; [now apply Hge|].
      apply Forall_forall. intros z Hz.
      rewrite Forall_forall in Hy.
      destruct (Htr z (HysU z Hz)) as [Ht _].
      apply Ht; [now apply Hy | now apply Hge].
Qed.

Lemma sort_desc_sorted (xs : list A) :
  incl xs U -> StronglySorted (key_ge key) (sort_desc key xs).
Proof.
  induction xs as [|x xs IH]; intros Hxs; cbn [sort_desc]; [constructor|].
  apply insert_desc_sorted.
  - apply Hxs. now left.
  - intros z Hz. apply Hxs. right. exact (proj1 (sort_desc_in xs z) Hz).
  - apply IH. intros z Hz. apply Hxs. now right.
Qed.

(** Stability: the elements whose key equals that of [k] come out in the
    order they went in. *)
Lemma insert_desc_stable (k x : A) (xs : list A) :
  In k U -> In x U -> incl xs U ->
  filter (fun c => PrimFloat.eqb (key c) (key k)) (insert_desc key x xs)
  = filter (fun c => PrimFloat.eqb (key c) (key k)) (x :: xs).
Proof.
  intros Hk Hx Hxs. induction xs as [|y ys IH]; [reflexivity|].
  assert (HyU : In y U) by (apply Hxs; now left).
  assert (HysU : incl ys U) by (intros z Hz; apply Hxs; now right).
  cbn [insert_desc].
  destruct (PrimFloat.ltb (key x) (key y)) eqn:E; [|reflexivity].
  cbn [filter]. rewrite (IH HysU). cbn [filter].
  destruct (PrimFloat.eqb (key x) (key k)) eqn:Ex;
    destruct (PrimFloat.eqb (key y) (key k)) eqn:Ey; try reflexivity.
  destruct (keys_ordered_spec U U_ordered x y Hx HyU) as (_ & _ & Htr).
  destruct (Htr k Hk) as [_ Hne]. rewrite (Hne Ex Ey) in E. discriminate.
Qed.

Lemma sort_desc_stable (k : A) (xs : list A) :
  In k U -> incl xs U ->
  filter (fun c => PrimFloat.eqb (key c) (key k)) (sort_desc key xs)
  = filter (fun c => PrimFloat.eqb (key c) (key k)) xs.
Proof.
  intros Hk. induction xs as [|x xs IH]; intros Hxs; [reflexivity|].
  cbn [sort_desc]. rewrite insert_desc_stable.
  - cbn [filter]. rewrite IH; [reflexivity|].
    intros z Hz. apply Hxs. now right.
  - exact Hk.
  - apply Hxs. now left.
  - intros z Hz. apply Hxs. right. exact (proj1 (sort_desc_in xs z) Hz).
Qed.

End SortFacts.

(** * Facts about the catalogs *)

Lemma cell_site_keys_nodup : NoDup (keys CELL_SITES_DB).
Proof.
  vm_compute. repeat constructor; cbn [In]; intuition discriminate.
Qed.

Lemma cell_site_keys_uncased (key : str) :
  In key (keys CELL_SITES_DB) -> forallb ascii_uncased key = true.
Proof.
  cbn [keys map fst CELL_SITES_DB In].
  intros [<- | [<- | [<- | [<- | []]]]]; vm_compute; reflexivity.
Qed.

(** No site belongs to two buckets, and no bucket is empty. *)
Lemma cell_site_one_bucket (k1 k2 : str) (b1 b2 : list CellSite.t)
    (s : CellSite.t) :
  In (k1, b1) CELL_SITES_DB -> In (k2, b2) CELL_SITES_DB ->
  In s b1 -> In s b2 -> k1 = k2.
Proof.
  unfold CELL_SITES_DB. cbn [In]. intros H1 H2.
  repeat match type of H1 with
         | _ \/ _ => destruct H1 as [H1 | H1]
         | False => destruct H1
         end;
  repeat match type of H2 with
         | _ \/ _ => destruct H2 as [H2 | H2]
         | False => destruct H2
         end;
  injection H1 as <- <-; injection H2 as <- <-; try reflexivity;
  cbn [In]; intros Hs1 Hs2; exfalso;
  repeat match type of Hs1 with
         | _ \/ _ => destruct Hs1 as [Hs1 | Hs1]
         | False => destruct Hs1
         end;
  subst s;
  repeat match type of Hs2 with
         | _ \/ _ => destruct Hs2 as [Hs2 | Hs2]
         | False => destruct Hs2
         end;
  apply (f_equal CellSite.site_id) in Hs2; vm_compute in Hs2; discriminate.
Qed.

Lemma cell_site_bucket_inhabited (k : str) (b : list CellSite.t) :
  In (k, b) CELL_SITES_DB -> exists s, In s b.
Proof.
  unfold CELL_SITES_DB. cbn [In].
  intros [H | [H | [H | [H | []]]]]; injection H as <- <-;
    eexists; left; reflexivity.
Qed.

Lemma similar_cases_ordered :
  keys_ordered SimilarCase.success_rate SIMILAR_CASES_DB = true.
Proof. vm_compute. reflexivity. Qed.

Lemma analyze_cell_sites_eq (location_key : str) :
  analyze_cell_sites location_key
  = Ok (flat_map snd
          (filter (fun b => str_in (fst b) location_key
                            || str_in location_key (fst b))
                  CELL_SITES_DB)).
Proof.
  unfold analyze_cell_sites.
  apply (for_each_selected_keys CELL_SITES_DB
           (fun key => str_in key location_key || str_in location_key key)).
  apply cell_site_keys_nodup.
Qed.

Lemma substring_app_l (x pre s : str) : substring x s -> substring x (pre ++ s).
Proof.
  intros (a & b & ->). exists (pre ++ a), b. now rewrite <- app_assoc.
Qed.


Lemma substring_refl (x : str) : substring x x.
Proof. exists [], []. now rewrite app_nil_r. Qed.


(** The three recommended products are distinct entries of the catalog. *)
Lemma recommended_entries_distinct :
  let d := KenmeiProduct.mk [] [] [] [] [] [] in
  nth 3 KENMEI_PRODUCTS_DB d <> nth 1 KENMEI_PRODUCTS_DB d
  /\ nth 3 KENMEI_PRODUCTS_DB d <> nth 0 KENMEI_PRODUCTS_DB d
  /\ nth 1 KENMEI_PRODUCTS_DB d <> nth 0 KENMEI_PRODUCTS_DB d.
Proof.
  cbv zeta. repeat split; intros H;
    apply (f_equal KenmeiProduct.product_name) in H;
    vm_compute in H; discriminate.
Qed.

(** Every location type has a case, so the cases matched for a location type
    that the classification can produce are never empty. *)
Lemma analyze_location_type_range (location_key : str) :
  In (analyze_location_type location_key)
     [u "urban"; u "industrial"; u "highway"; u "underground"].
Proof.
  unfold analyze_location_type.
  destruct (str_in (u "poligono") location_key
            || str_in (u "industrial") location_key);
    [right; left; reflexivity|].
  destruct (str_in (u "autovia") location_key
            || str_in (u "carretera") location_key);
    [right; right; left; reflexivity|].
  destruct (str_in (u "metro") location_key
            || str_in (u "tunel") location_key);
    [right; right; right; left; reflexivity | left; reflexivity].
Qed.

Lemma location_type_has_case (location_type : str) :
  In location_type [u "urban"; u "industrial"; u "highway"; u "underground"] ->
  exists c,
    In c SIMILAR_CASES_DB /\ SimilarCase.location_type c = location_type.
Proof.
  unfold SIMILAR_CASES_DB. cbn [In].
  intros [<- | [<- | [<- | [<- | []]]]]; eexists.
  - split; [left; reflexivity | reflexivity].
  - split; [right; left; reflexivity | reflexivity].
  - split; [right; right; left; reflexivity | reflexivity].
  - split; [right; right; right; left; reflexivity | reflexivity].
Qed.

Lemma analyze_similar_cases_inhabited (location_type : str) :
  In location_type [u "urban"; u "industrial"; u "highway"; u "underground"] ->
  analyze_similar_cases location_type <> [].
Proof.
  cbn [In]. intros [<- | [<- | [<- | [<- | []]]]]; vm_compute; discriminate.
Qed.

Lemma firstn_3_inhabited {A : Type} (xs : list A) :
  xs <> [] -> firstn 3 xs <> [].
Proof. destruct xs; [congruence | discriminate]. Qed.

(** With a matched case the narrative ends with the case-count line. *)
Lemma additional_context_ends_with_cases
    (cell_sites : list CellSite.t) (active_incidents : list ActiveIncident.t)
    (scheduled_maintenance : list ScheduledMaintenance.t)
    (similar_cases : list SimilarCase.t) :
  similar_cases <> [] ->
  exists pre,
    analyze_additional_context cell_sites active_incidents
      scheduled_maintenance similar_cases
    = pre ++ cases_line similar_cases.
Proof.
  intros Hne. unfold analyze_additional_context.
  destruct similar_cases as [|c cs]; [congruence|]. cbn [nonempty].
  match goal with
  | |- context [nonempty (?parts ++ [?line])] =>
      generalize parts; generalize line
  end.
  intros line parts.
  replace (nonempty (parts ++ [line])) with true
    by (now destruct parts).
  apply join_ends_with.
Qed.

Lemma cases_line_last (similar_cases : list SimilarCase.t) :
  last (cases_line similar_cases) 0%N = 111%N.
Proof.
  unfold cases_line. rewrite app_assoc.
  rewrite last_app_nonempty; [vm_compute; reflexivity | vm_compute; discriminate].
Qed.

Lemma cases_line_inhabited (similar_cases : list SimilarCase.t) :
  cases_line similar_cases <> [].
Proof.
  intros H. pose proof (cases_line_last similar_cases) as L.
  rewrite H in L. discriminate.
Qed.

(** * The endpoints *)

Section Claims.

Variable lower : str -> str.
Variable boot : nat -> datetime.

(** The three subscripts of the product catalog are in range, so the
    recommendation never raises. *)
Lemma analyze_recommended_products_eq (request : DiagnosticRequest.t) :
  let issue_lower := lower (DiagnosticRequest.issue_type request) in
  analyze_recommended_products lower request
  = Ok ((if str_in (u "interference") issue_lower
            || str_in (u "signal")
                 (lower (join (u " ") (DiagnosticRequest.symptoms request)))
         then [nth 3 KENMEI_PRODUCTS_DB (KenmeiProduct.mk [] [] [] [] [] [])]
         else [])
        ++ (if str_in (u "coverage") issue_lower
               || str_in (u "cobertura") issue_lower
            then [nth 1 KENMEI_PRODUCTS_DB (KenmeiProduct.mk [] [] [] [] [] [])]
            else [])
        ++ [nth 0 KENMEI_PRODUCTS_DB (KenmeiProduct.mk [] [] [] [] [] [])]).
Proof.
  intros issue_lower. unfold analyze_recommended_products.
  fold issue_lower.
  destruct (str_in (u "interference") issue_lower
            || str_in (u "signal")
                 (lower (join (u " ") (DiagnosticRequest.symptoms request))));
    destruct (str_in (u "coverage") issue_lower
              || str_in (u "cobertura") issue_lower);
    reflexivity.
Qed.

(** The diagnostic endpoint always returns, and its response is made of the
    values of the blocks. *)
Lemma analyze_diagnostic_ok (now : datetime) (request : DiagnosticRequest.t) :
  let location_key := lower (DiagnosticRequest.location request) in
  exists cell_sites products,
    analyze_cell_sites location_key = Ok cell_sites
    /\ analyze_recommended_products lower request = Ok products
    /\ analyze_diagnostic lower boot now request
       = Ok (DiagnosticResponse.mk
               ((0 <? List.length cell_sites)
                || (0 <? List.length
                           (analyze_active_incidents lower boot location_key)))%nat
               cell_sites
               (analyze_active_incidents lower boot location_key)
               (analyze_scheduled_maintenance boot now)
               (firstn 3 (analyze_similar_cases
                            (analyze_location_type location_key)))
               products
               (analyze_additional_context cell_sites
                  (analyze_active_incidents lower boot location_key)
                  (analyze_scheduled_maintenance boot now)
                  (analyze_similar_cases
                     (analyze_location_type location_key)))).
Proof.
  intros location_key. unfold analyze_diagnostic. fold location_key.
  rewrite analyze_cell_sites_eq, analyze_recommended_products_eq.
  eexists _, _. repeat split.
Qed.

Section Uncased.

(** [str.lower] leaves a string of uncased ASCII characters as it is. *)
Hypothesis lower_uncased :
  forall s, forallb ascii_uncased s = true -> lower s = s.

Lemma lower_cell_site_key (b : str * list CellSite.t) :
  In b CELL_SITES_DB -> lower (fst b) = fst b.
Proof.
  intros H. apply lower_uncased, cell_site_keys_uncased.
  unfold keys. now apply in_map.
Qed.

(** C1.  The sites of the diagnostic response are the buckets, in catalog
    order, whose lowered key occurs in the lowered request location or in
    whose key the lowered request location occurs; a bucket of the catalog
    is included in the response exactly when its key passes this
    two-way test. *)
Theorem diagnostic_sites_two_way_substring
    (now : datetime) (request : DiagnosticRequest.t) :
  let location_key := lower (DiagnosticRequest.location request) in
  exists r,
    analyze_diagnostic lower boot now request = Ok r
    /\ DiagnosticResponse.cell_sites_nearby r
       = flat_map snd
           (filter (fun b => str_in (lower (fst b)) location_key
                             || str_in location_key (fst b))
                   CELL_SITES_DB)
    /\ forall key bucket, In (key, bucket) CELL_SITES_DB ->
         (incl bucket (DiagnosticResponse.cell_sites_nearby r)
          <-> substring (lower key) location_key
              \/ substring location_key key).
Proof.
  intros location_key.
  destruct (analyze_diagnostic_ok now request)
    as (cell_sites & products & Hcs & _ & Hr).
  fold location_key in Hcs, Hr.
  rewrite analyze_cell_sites_eq in Hcs. apply Ok_inj in Hcs.
  eexists. split; [exact Hr|]. cbn [DiagnosticResponse.cell_sites_nearby].
  assert (Hsame : filter (fun b => str_in (lower (fst b)) location_key
                                   || str_in location_key (fst b))
                         CELL_SITES_DB
                  = filter (fun b => str_in (fst b) location_key
                                     || str_in location_key (fst b))
                           CELL_SITES_DB).
  { apply filter_ext_in. intros b Hb. now rewrite lower_cell_site_key. }
  split; [now rewrite Hsame|].
  intros key bucket Hin.
  rewrite <- !str_in_spec, <- orb_true_iff.
  pose proof (lower_cell_site_key (key, bucket) Hin) as Hkey.
  cbn [fst] in Hkey. rewrite Hkey.
  rewrite <- Hcs. split.
  - intros Hincl.
    destruct (cell_site_bucket_inhabited key bucket Hin) as [s Hs].
    specialize (Hincl s Hs).
    apply in_flat_map in Hincl as ([k' b'] & Hb' & Hs').
    apply filter_In in Hb' as [Hb' Hsel]. cbn [fst snd] in *.
    now rewrite (cell_site_one_bucket key k' bucket b' s Hin Hb' Hs Hs').
  - intros Hsel s Hs. apply in_flat_map. exists (key, bucket).
    split; [|exact Hs]. apply filter_In. now split.
Qed.

Lemma lower_severity (inc : ActiveIncident.t) :
  In inc (ACTIVE_INCIDENTS_DB boot) ->
  lower (ActiveIncident.severity inc) = ActiveIncident.severity inc.
Proof.
  cbn [ACTIVE_INCIDENTS_DB In].
  intros [<- | [<- | []]]; apply lower_uncased; vm_compute; reflexivity.
Qed.

Lemma lower_location_type (c : SimilarCase.t) :
  In c SIMILAR_CASES_DB ->
  lower (SimilarCase.location_type c) = SimilarCase.location_type c.
Proof.
  cbn [SIMILAR_CASES_DB In].
  intros [<- | [<- | [<- | [<- | []]]]];
    apply lower_uncased; vm_compute; reflexivity.
Qed.

Lemma lower_empty : lower [] = [].
Proof. now apply lower_uncased. Qed.

Lemma filter_by_location_eq (location : option str)
    (incidents : list ActiveIncident.t) :
  filter_by_location lower location incidents
  = filter (fun inc =>
              match location with
              | Some loc =>
                  str_in (lower loc)
                         (lower (ActiveIncident.affected_area inc))
              | None => true
              end) incidents.
Proof.
  destruct location as [[|c loc]|]; cbn [filter_by_location].
  - symmetry. erewrite filter_ext; [apply filter_true|].
    intros inc. now rewrite lower_empty, str_in_nil.
  - reflexivity.
  - symmetry. apply filter_true.
Qed.

Lemma filter_by_severity_eq (severity : option str)
    (incidents : list ActiveIncident.t) :
  incl incidents (ACTIVE_INCIDENTS_DB boot) ->
  filter_by_severity lower severity incidents
  = filter (fun inc =>
              match severity with
              | Some ((_ :: _) as sev) =>
                  str_eqb (lower (ActiveIncident.severity inc)) (lower sev)
              | _ => true
              end) incidents.
Proof.
  intros Hincl. destruct severity as [[|d sev]|]; cbn [filter_by_severity].
  - symmetry. apply filter_true.
  - apply filter_ext_in. intros inc Hinc.
    now rewrite (lower_severity inc (Hincl inc Hinc)).
  - symmetry. apply filter_true.
Qed.

(** C7, as amended.  The incident query returns, in catalog order, the
    incidents whose lowered affected area contains the lowered location
    and whose severity equals the severity value up to case; an absent
    filter selects everything, and so does an empty severity value. *)
Theorem incidents_filtered_in_catalog_order
    (location severity : option str) :
  get_active_incidents lower boot location severity
  = filter (fun inc =>
              match location with
              | Some loc =>
                  str_in (lower loc)
                         (lower (ActiveIncident.affected_area inc))
              | None => true
              end
              && match severity with
                 | Some ((_ :: _) as sev) =>
                     str_eqb (lower (ActiveIncident.severity inc))
                             (lower sev)
                 | _ => true
                 end)
           (ACTIVE_INCIDENTS_DB boot)
  /\ forall inc,
       In inc (get_active_incidents lower boot location severity)
       <-> In inc (ACTIVE_INCIDENTS_DB boot)
           /\ (forall loc, location = Some loc ->
                 substring (lower loc)
                           (lower (ActiveIncident.affected_area inc)))
           /\ (forall sev, severity = Some sev -> sev <> [] ->
                 lower (ActiveIncident.severity inc) = lower sev).
Proof.
  assert (E : get_active_incidents lower boot location severity
              = filter (fun inc =>
                  match location with
                  | Some loc =>
                      str_in (lower loc)
                             (lower (ActiveIncident.affected_area inc))
                  | None => true
                  end
                  && match severity with
                     | Some ((_ :: _) as sev) =>
                         str_eqb (lower (ActiveIncident.severity inc))
                                 (lower sev)
                     | _ => true
                     end)
                (ACTIVE_INCIDENTS_DB boot)).
  { unfold get_active_incidents.
    rewrite filter_by_location_eq.
    rewrite filter_by_severity_eq by apply incl_filter.
    apply filter_andb. }
  split; [exact E|]. intros inc. rewrite E, filter_In, andb_true_iff.
  split.
  - intros (Hin & Hloc & Hsev). split; [exact Hin|]. split.
    + intros loc ->. now apply str_in_spec.
    + intros sev -> Hne. destruct sev as [|d sev]; [congruence|].
      now apply str_eqb_eq.
  - intros (Hin & Hloc & Hsev). split; [exact Hin|]. split.
    + destruct location as [loc|]; [|reflexivity].
      apply str_in_spec. exact (Hloc loc eq_refl).
    + destruct severity as [[|d sev]|]; try reflexivity.
      apply str_eqb_eq. apply (Hsev (d :: sev) eq_refl). discriminate.
Qed.

(** C6, as amended.  The case query selects the cases whose location type
    equals the filter value up to case, or every case when the filter is
    absent or empty; it returns them by descending success rate, and
    cases with the same success rate stay in catalog order. *)
Theorem cases_selected_sorted_stable (location_type : option str) :
  let selected :=
    match location_type with
    | Some ((_ :: _) as lt) =>
        filter (fun c => str_eqb (lower (SimilarCase.location_type c))
                                 (lower lt))
               SIMILAR_CASES_DB
    | _ => SIMILAR_CASES_DB
    end in
  let result := get_similar_cases lower location_type in
  Permutation result selected
  /\ StronglySorted rate_ge result
  /\ forall k, In k SIMILAR_CASES_DB ->
       same_rate_as k result = same_rate_as k selected.
Proof.
  intros selected result.
  assert (Hres : result = sort_desc SimilarCase.success_rate selected).
  { unfold result, selected, get_similar_cases.
    destruct location_type as [[|c lt]|]; try reflexivity.
    f_equal. apply filter_ext_in. intros k Hk.
    now rewrite (lower_location_type k Hk). }
  assert (Hincl : incl selected SIMILAR_CASES_DB).
  { unfold selected. destruct location_type as [[|c lt]|];
      try apply incl_refl. apply incl_filter. }
  rewrite Hres. split; [apply sort_desc_perm|]. split.
  - apply (sort_desc_sorted SimilarCase.success_rate SIMILAR_CASES_DB
             similar_cases_ordered selected Hincl).
  - intros k Hk.
    apply (sort_desc_stable SimilarCase.success_rate SIMILAR_CASES_DB
             similar_cases_ordered k selected Hk Hincl).
Qed.

End Uncased.

(** C10.  The two filters of the incident query commute: on any list of
    incidents, filtering by location and then by severity gives the same
    list as filtering by severity and then by location; the query is
    either composition applied to the catalog. *)
Theorem incident_filters_commute (location severity : option str)
    (incidents : list ActiveIncident.t) :
  filter_by_severity lower severity
    (filter_by_location lower location incidents)
  = filter_by_location lower location
      (filter_by_severity lower severity incidents)
  /\ get_active_incidents lower boot location severity
     = filter_by_location lower location
         (filter_by_severity lower severity (ACTIVE_INCIDENTS_DB boot)).
Proof.
  assert (H : forall xs,
             filter_by_severity lower severity
               (filter_by_location lower location xs)
             = filter_by_location lower location
                 (filter_by_severity lower severity xs)).
  { intros xs. unfold filter_by_severity, filter_by_location.
    destruct location as [[|c loc]|]; destruct severity as [[|d sev]|];
      try reflexivity.
    apply filter_swap. }
  split; [apply H|]. unfold get_active_incidents. apply H.
Qed.

(** C2, as amended.  With [active_only] false the maintenance query returns
    the whole catalog; with [active_only] true it returns, in the same
    order, the windows of that list with
    [scheduled_start <= now <= scheduled_end], so it is contained in it,
    and it is strictly smaller exactly when some window is not active. *)
Theorem maintenance_active_only_subset (now : datetime) :
  get_scheduled_maintenance boot now false = SCHEDULED_MAINTENANCE_DB boot
  /\ get_scheduled_maintenance boot now true
     = filter (is_active now) (get_scheduled_maintenance boot now false)
  /\ incl (get_scheduled_maintenance boot now true)
          (get_scheduled_maintenance boot now false)
  /\ Forall (fun m => (ScheduledMaintenance.scheduled_start m <= now
                       <= ScheduledMaintenance.scheduled_end m)%Z)
            (get_scheduled_maintenance boot now true)
  /\ (forall m, In m (get_scheduled_maintenance boot now true)
                <-> In m (SCHEDULED_MAINTENANCE_DB boot)
                    /\ (ScheduledMaintenance.scheduled_start m <= now
                        <= ScheduledMaintenance.scheduled_end m)%Z)
  /\ (strict_subset (get_scheduled_maintenance boot now true)
                    (get_scheduled_maintenance boot now false)
      <-> exists m, In m (SCHEDULED_MAINTENANCE_DB boot)
                    /\ is_active now m = false).
Proof.
  assert (Hact : forall m, is_active now m = true
                   <-> (ScheduledMaintenance.scheduled_start m <= now
                        <= ScheduledMaintenance.scheduled_end m)%Z).
  { intros m. unfold is_active. rewrite andb_true_iff, !Z.leb_le. tauto. }
  unfold get_scheduled_maintenance.
  generalize (SCHEDULED_MAINTENANCE_DB boot). intros db.
  repeat split.
  - apply incl_filter.
  - apply Forall_forall. intros m Hm. apply filter_In in Hm as [_ Hm].
    now apply Hact.
  - apply filter_In in H as [H _]. exact H.
  - apply filter_In in H as [_ H]. now apply Hact.
  - apply filter_In in H as [_ H]. now apply Hact.
  - intros [Hin Hm]. apply filter_In. split; [exact Hin | now apply Hact].
  - intros [_ Hn].
    destruct (forallb (is_active now) db) eqn:E.
    + exfalso. apply Hn. intros m Hm. apply filter_In. split; [exact Hm|].
      rewrite forallb_forall in E. now apply E.
    + assert (Hex : existsb (fun m => negb (is_active now m)) db = true).
      { clear Hn. induction db as [|m db IH]; [discriminate|].
        cbn [forallb existsb] in *.
        destruct (is_active now m); cbn [negb andb orb] in *; auto. }
      apply existsb_exists in Hex as (m & Hm & Hneg).
      exists m. split; [exact Hm | now apply negb_true_iff].
  - apply incl_filter.
  - intros Hincl. destruct H as (m & Hm & Hna).
    apply Hincl in Hm. apply filter_In in Hm as [_ Hm]. congruence.
Qed.

Lemma analyze_recommended_products_nodup (request : DiagnosticRequest.t)
    (products : list KenmeiProduct.t) :
  analyze_recommended_products lower request = Ok products -> NoDup products.
Proof.
  rewrite analyze_recommended_products_eq. intros H. apply Ok_inj in H.
  subst products.
  pose proof recommended_entries_distinct as D. cbv zeta in D. revert D.
  generalize (nth 3 KENMEI_PRODUCTS_DB (KenmeiProduct.mk [] [] [] [] [] []))
             (nth 1 KENMEI_PRODUCTS_DB (KenmeiProduct.mk [] [] [] [] [] []))
             (nth 0 KENMEI_PRODUCTS_DB (KenmeiProduct.mk [] [] [] [] [] [])).
  intros interference geolocation anomaly (H31 & H30 & H10).
  destruct (str_in (u "interference") _ || str_in (u "signal") _);
    destruct (str_in (u "coverage") _ || str_in (u "cobertura") _);
    cbn [app]; repeat constructor; cbn [In]; intuition congruence.
Qed.

(** C3, as amended.  The recommended products are built by three rules in
    a fixed order: the Interference-Detection product when the lowered issue
    type contains "interference" or the lowered symptoms, joined by spaces,
    contain "signal"; the Geolocation product when the lowered issue type
    contains "coverage" or "cobertura"; the Anomaly-Detection product
    always, last.  The rules name three distinct catalog entries, so the
    list never holds a product twice. *)
Theorem recommended_products_three_rules
    (now : datetime) (request : DiagnosticRequest.t) :
  let issue_lower := lower (DiagnosticRequest.issue_type request) in
  let symptoms_lower :=
    lower (join (u " ") (DiagnosticRequest.symptoms request)) in
  exists r interference geolocation anomaly,
    analyze_diagnostic lower boot now request = Ok r
    /\ In interference KENMEI_PRODUCTS_DB
    /\ KenmeiProduct.product_name interference
       = u "Kenmei Interference Detection"
    /\ In geolocation KENMEI_PRODUCTS_DB
    /\ KenmeiProduct.product_name geolocation
       = u "Kenmei Geolocation - Virtual Drive Testing"
    /\ In anomaly KENMEI_PRODUCTS_DB
    /\ KenmeiProduct.product_name anomaly
       = u "Kenmei AI Agents - Anomaly Detection"
    /\ DiagnosticResponse.recommended_products r
       = (if str_in (u "interference") issue_lower
             || str_in (u "signal") symptoms_lower
          then [interference] else [])
         ++ (if str_in (u "coverage") issue_lower
                || str_in (u "cobertura") issue_lower
             then [geolocation] else [])
         ++ [anomaly]
    /\ NoDup (DiagnosticResponse.recommended_products r).
Proof.
  intros issue_lower symptoms_lower.
  destruct (analyze_diagnostic_ok now request)
    as (cell_sites & products & _ & Hp & Hr).
  pose proof (analyze_recommended_products_nodup request products Hp) as Hnd.
  rewrite analyze_recommended_products_eq in Hp. apply Ok_inj in Hp.
  fold issue_lower symptoms_lower in Hp.
  exists (DiagnosticResponse.mk
            ((0 <? List.length cell_sites)
             || (0 <? List.length
                        (analyze_active_incidents lower boot
                           (lower (DiagnosticRequest.location request)))))%nat
            cell_sites
            (analyze_active_incidents lower boot
               (lower (DiagnosticRequest.location request)))
            (analyze_scheduled_maintenance boot now)
            (firstn 3 (analyze_similar_cases
                         (analyze_location_type
                            (lower (DiagnosticRequest.location request)))))
            products
            (analyze_additional_context cell_sites
               (analyze_active_incidents lower boot
                  (lower (DiagnosticRequest.location request)))
               (analyze_scheduled_maintenance boot now)
               (analyze_similar_cases
                  (analyze_location_type
                     (lower (DiagnosticRequest.location request)))))),
    (nth 3 KENMEI_PRODUCTS_DB (KenmeiProduct.mk [] [] [] [] [] [])),
    (nth 1 KENMEI_PRODUCTS_DB (KenmeiProduct.mk [] [] [] [] [] [])),
    (nth 0 KENMEI_PRODUCTS_DB (KenmeiProduct.mk [] [] [] [] [] [])).
  split; [exact Hr|].
  cbn [DiagnosticResponse.recommended_products].
  split; [right; right; right; left; reflexivity|].
  split; [reflexivity|].
  split; [right; left; reflexivity|].
  split; [reflexivity|].
  split; [left; reflexivity|].
  split; [reflexivity|].
  split; [symmetry; exact Hp | exact Hnd].
Qed.

(** C4.  The location type is decided by the first rule that applies, in
    this order: "poligono" or "industrial" gives industrial; otherwise
    "autovia" or "carretera" gives highway; otherwise "metro" or "tunel"
    gives underground; otherwise urban.  A location with both "poligono"
    and "metro" is industrial. *)
Theorem location_type_first_match_wins (location : str) :
  let location_key := lower location in
  let has (keyword : str) := substring keyword location_key in
  let industrial := has (u "poligono") \/ has (u "industrial") in
  let highway := has (u "autovia") \/ has (u "carretera") in
  let underground := has (u "metro") \/ has (u "tunel") in
  (industrial -> analyze_location_type location_key = u "industrial")
  /\ (~ industrial -> highway ->
      analyze_location_type location_key = u "highway")
  /\ (~ industrial -> ~ highway -> underground ->
      analyze_location_type location_key = u "underground")
  /\ (~ industrial -> ~ highway -> ~ underground ->
      analyze_location_type location_key = u "urban")
  /\ (has (u "poligono") -> has (u "metro") ->
      analyze_location_type location_key = u "industrial").
Proof.
  intros location_key has industrial highway underground.
  unfold industrial, highway, underground, has, analyze_location_type.
  rewrite <- !str_in_spec, <- !orb_true_iff.
  destruct (str_in (u "poligono") location_key) eqn:E1;
    destruct (str_in (u "industrial") location_key) eqn:E2;
    destruct (str_in (u "autovia") location_key) eqn:E3;
    destruct (str_in (u "carretera") location_key) eqn:E4;
    destruct (str_in (u "metro") location_key) eqn:E5;
    destruct (str_in (u "tunel") location_key) eqn:E6;
    cbn [orb]; repeat split; intros; try reflexivity;
    try discriminate; exfalso; auto.
Qed.

(** C5.  The classified location type is one of urban, industrial,
    highway and underground; each of them is the location type of a case
    of the catalog; so the cases matched for a request are never empty,
    the narrative of the response contains the case-count line, and it is
    never the sentence used when there is no context. *)
Theorem diagnostic_cases_never_empty
    (now : datetime) (request : DiagnosticRequest.t) :
  let location_type :=
    analyze_location_type (lower (DiagnosticRequest.location request)) in
  let matched := analyze_similar_cases location_type in
  exists r,
    analyze_diagnostic lower boot now request = Ok r
    /\ In location_type
          [u "urban"; u "industrial"; u "highway"; u "underground"]
    /\ (forall lt,
          In lt [u "urban"; u "industrial"; u "highway"; u "underground"] ->
          exists c, In c SIMILAR_CASES_DB /\ SimilarCase.location_type c = lt)
    /\ matched <> []
    /\ DiagnosticResponse.similar_cases r = firstn 3 matched
    /\ DiagnosticResponse.similar_cases r <> []
    /\ substring (cases_line matched)
                 (DiagnosticResponse.additional_context r)
    /\ DiagnosticResponse.additional_context r <> NO_CONTEXT.
Proof.
  intros location_type matched.
  destruct (analyze_diagnostic_ok now request)
    as (cell_sites & products & _ & _ & Hr).
  fold location_type in Hr. fold matched in Hr.
  pose proof (analyze_location_type_range
                (lower (DiagnosticRequest.location request))) as Hrange.
  fold location_type in Hrange.
  pose proof (analyze_similar_cases_inhabited location_type Hrange) as Hne.
  fold matched in Hne.
  destruct (additional_context_ends_with_cases cell_sites
              (analyze_active_incidents lower boot
                 (lower (DiagnosticRequest.location request)))
              (analyze_scheduled_maintenance boot now) matched Hne)
    as [pre Hctx].
  eexists. split; [exact Hr|].
  cbn [DiagnosticResponse.similar_cases
       DiagnosticResponse.additional_context].
  split; [exact Hrange|]. split.
  { exact location_type_has_case. }
  split; [exact Hne|]. split; [reflexivity|].
  split; [now apply firstn_3_inhabited|].
  rewrite Hctx. split.
  - apply substring_app_l, substring_refl.
  - intros Heq. apply (f_equal (fun s => last s 0%N)) in Heq.
    rewrite last_app_nonempty in Heq by apply cases_line_inhabited.
    rewrite cases_line_last in Heq. vm_compute in Heq. discriminate.
Qed.

(** C9.  [context_found] holds exactly when the response lists a site or
    an incident.  It is the same whatever the clock reads, hence whatever
    maintenance is active, and it is false for a request with no site and
    no incident although cases are always matched. *)
Theorem context_found_sites_or_incidents
    (now : datetime) (request : DiagnosticRequest.t) :
  exists r,
    analyze_diagnostic lower boot now request = Ok r
    /\ (DiagnosticResponse.context_found r = true
        <-> DiagnosticResponse.cell_sites_nearby r <> []
            \/ DiagnosticResponse.active_incidents r <> [])
    /\ (forall now', exists r',
          analyze_diagnostic lower boot now' request = Ok r'
          /\ DiagnosticResponse.context_found r'
             = DiagnosticResponse.context_found r)
    /\ (DiagnosticResponse.cell_sites_nearby r = [] ->
        DiagnosticResponse.active_incidents r = [] ->
        DiagnosticResponse.context_found r = false
        /\ DiagnosticResponse.similar_cases r <> []).
Proof.
  destruct (analyze_diagnostic_ok now request)
    as (cell_sites & products & Hcs & Hp & Hr).
  eexists. split; [exact Hr|].
  cbn [DiagnosticResponse.context_found DiagnosticResponse.cell_sites_nearby
       DiagnosticResponse.active_incidents DiagnosticResponse.similar_cases].
  split; [|split].
  - rewrite orb_true_iff, !Nat.ltb_lt.
    destruct cell_sites;
      destruct (analyze_active_incidents lower boot _);
      cbn [List.length]; split;
      try (intros [H | H]; (lia || congruence));
      intros _; (left; lia) || (right; lia) ||
                (left; discriminate) || (right; discriminate).
  - intros now'.
    destruct (analyze_diagnostic_ok now' request)
      as (cell_sites' & products' & Hcs' & _ & Hr').
    rewrite Hcs in Hcs'. apply Ok_inj in Hcs'. subst cell_sites'.
    eexists. split; [exact Hr' | reflexivity].
  - intros -> ->. split; [reflexivity|].
    apply firstn_3_inhabited, analyze_similar_cases_inhabited,
      analyze_location_type_range.
Qed.






End Claims.

(** * The model on concrete inputs *)

Example sites_for_Valencia :
  exists bucket,
    get_cell_sites lower_latin1 (u "Valencia") = Ok bucket
    /\ map (fun s => (CellSite.site_id s, CellSite.status s)) bucket
       = [ (u "VLC-001", u "active"); (u "VLC-002", u "degraded");
           (u "VLC-003", u "active") ].
Proof. eexists. split; vm_compute; reflexivity. Qed.

Example incidents_of_high_severity :
  map ActiveIncident.incident_id
      (get_active_incidents lower_latin1 boot0 None (Some (u "high")))
  = [u "INC-2024-1142"].
Proof. vm_compute. reflexivity. Qed.

Example diagnose_Valencia_Centro :
  exists r,
    analyze_diagnostic lower_latin1 boot0 (boot0 0)
      (req "Valencia Centro" "interference" [u "signal drop"]) = Ok r
    /\ DiagnosticResponse.context_found r = true
    /\ map CellSite.site_id (DiagnosticResponse.cell_sites_nearby r)
       = [u "VLC-001"; u "VLC-002"; u "VLC-003"]
    /\ map ActiveIncident.incident_id (DiagnosticResponse.active_incidents r)
       = [u "INC-2024-1142"]
    /\ map KenmeiProduct.product_name
           (DiagnosticResponse.recommended_products r)
       = [ u "Kenmei Interference Detection";
           u "Kenmei AI Agents - Anomaly Detection" ]
    /\ map SimilarCase.location_type (DiagnosticResponse.similar_cases r)
       = [u "urban"].
Proof. eexists. repeat split; vm_compute; reflexivity. Qed.

Example poligono_and_metro_is_industrial :
  analyze_location_type (lower_latin1 (u "Metro del Poligono Sur"))
  = u "industrial".
Proof. vm_compute. reflexivity. Qed.

(** Queries that match nothing return an empty list, not an error. *)
Example no_match_is_an_empty_body :
  serve lower_latin1 boot0 (boot0 0)
        (GetActiveIncidents (Some (u "Sevilla")) None)
  = Ok (ActiveIncidents [])
  /\ serve lower_latin1 boot0 (boot0 0 + timedelta_hours 5)%Z
           (GetScheduledMaintenance true)
     = Ok (Maintenance [])
  /\ serve lower_latin1 boot0 (boot0 0) (GetKenmeiProducts (Some (u "Hardware")))
     = Ok (Products [])
  /\ serve lower_latin1 boot0 (boot0 0) (GetSimilarCases (Some (u "rural")))
     = Ok (Cases []).
Proof. repeat split; vm_compute; reflexivity. Qed.

(** A severity that no incident has also gives an empty list, whatever the
    location. *)
Example unmatched_severity_is_an_empty_body :
  serve lower_latin1 boot0 (boot0 0)
        (GetActiveIncidents None (Some (u "critical")))
  = Ok (ActiveIncidents [])
  /\ serve lower_latin1 boot0 (boot0 0)
           (GetActiveIncidents (Some (u "Valencia")) (Some (u "low")))
     = Ok (ActiveIncidents []).
Proof. split; vm_compute; reflexivity. Qed.

(** A request with no site and no incident: the flag is false although a
    maintenance window is active and a case is matched. *)
Example context_not_found_with_maintenance_and_cases :
  exists r,
    analyze_diagnostic lower_latin1 boot0 (boot0 0)
      (req "Sevilla" "speed" []) = Ok r
    /\ DiagnosticResponse.context_found r = false
    /\ List.length (DiagnosticResponse.scheduled_maintenance r) = 1
    /\ List.length (DiagnosticResponse.similar_cases r) = 1.
Proof. eexists. repeat split; vm_compute; reflexivity. Qed.

(** * Instances of the theorems that assume [lower_uncased] *)

Lemma diagnostic_sites_downtown_valencia :
  exists r,
    analyze_diagnostic lower_latin1 boot0 (boot0 0)
      (req "downtown valencia" "coverage" []) = Ok r
    /\ map CellSite.site_id (DiagnosticResponse.cell_sites_nearby r)
       = [u "VLC-001"; u "VLC-002"; u "VLC-003"].
Proof.
  destruct (diagnostic_sites_two_way_substring lower_latin1 boot0
              lower_latin1_uncased (boot0 0)
              (req "downtown valencia" "coverage" []))
    as (r & Hr & Hsites & _).
  exists r. split; [exact Hr|]. rewrite Hsites. vm_compute. reflexivity.
Defined.

Lemma cases_for_Urban :
  Permutation
    (get_similar_cases lower_latin1 (Some (u "Urban")))
    (filter (fun c => str_eqb (lower_latin1 (SimilarCase.location_type c))
                              (lower_latin1 (u "Urban")))
            SIMILAR_CASES_DB)
  /\ StronglySorted rate_ge (get_similar_cases lower_latin1 (Some (u "Urban"))).
Proof.
  destruct (cases_selected_sorted_stable lower_latin1 lower_latin1_uncased
              (Some (u "Urban"))) as (Hperm & Hsorted & _).
  split; [exact Hperm | exact Hsorted].
Defined.

Lemma incidents_in_VALENCIA_of_High_severity :
  map ActiveIncident.incident_id
      (get_active_incidents lower_latin1 boot0
         (Some (u "VALENCIA")) (Some (u "High")))
  = [u "INC-2024-1142"].
Proof.
  rewrite (proj1 (incidents_filtered_in_catalog_order lower_latin1 boot0
                    lower_latin1_uncased
                    (Some (u "VALENCIA")) (Some (u "High")))).
  vm_compute. reflexivity.
Defined.

(** * Inputs on which a statement of the specification fails *)

(** While the only window of the catalog is active, [active_only] changes
    nothing: the result is not a strict subset. *)
Lemma maintenance_active_only_not_strict :
  ~ strict_subset (get_scheduled_maintenance boot0 (boot0 0) true)
                  (get_scheduled_maintenance boot0 (boot0 0) false).
Proof.
  intros [_ H]. apply H.
  replace (get_scheduled_maintenance boot0 (boot0 0) true)
    with (get_scheduled_maintenance boot0 (boot0 0) false)
    by (vm_compute; reflexivity).
  apply incl_refl.
Qed.

(** No request makes the recommendation hold a product twice. *)
Lemma recommended_products_never_repeat :
  ~ exists now request r,
      analyze_diagnostic lower_latin1 boot0 now request = Ok r
      /\ ~ NoDup (DiagnosticResponse.recommended_products r).
Proof.
  intros (now & request & r & Hr & Hdup).
  destruct (analyze_diagnostic_ok lower_latin1 boot0 now request)
    as (cell_sites & products & _ & Hp & Hr').
  rewrite Hr' in Hr. apply Ok_inj in Hr. subst r. apply Hdup.
  cbn [DiagnosticResponse.recommended_products].
  exact (analyze_recommended_products_nodup lower_latin1 request products Hp).
Qed.

(** An empty location-type filter returns the four cases, none of which has
    the empty location type. *)
Lemma cases_for_empty_filter_are_all :
  ~ Permutation
      (get_similar_cases lower_latin1 (Some []))
      (filter (fun c => str_eqb (lower_latin1 (SimilarCase.location_type c))
                                (lower_latin1 []))
              SIMILAR_CASES_DB).
Proof.
  intros H. apply Permutation_length in H. vm_compute in H. discriminate.
Qed.

(** An empty severity filter returns both incidents, none of which has the
    empty severity. *)
Lemma incidents_for_empty_severity_are_all :
  get_active_incidents lower_latin1 boot0 None (Some [])
  <> filter (fun inc => str_eqb (lower_latin1 (ActiveIncident.severity inc))
                                (lower_latin1 []))
            (ACTIVE_INCIDENTS_DB boot0).
Proof.
  intros H. apply (f_equal (@List.length _)) in H. vm_compute in H.
  discriminate.
Qed.

(** * Further properties of the endpoints *)

Lemma substring_trans (a b c : str) :
  substring a b -> substring b c -> substring a c.
Proof.
  intros (p1 & q1 & ->) (p2 & q2 & ->).
  exists (p2 ++ p1), (q1 ++ q2). now rewrite <- !app_assoc.
Qed.

Lemma str_in_refl (s : str) : str_in s s = true.
Proof. apply str_in_spec, substring_refl. Qed.

Lemma fold_left_snoc {A B : Type} (f : B -> A) (xs : list B) (acc : list A) :
  fold_left (fun parts x => parts ++ [f x]) xs acc = acc ++ map f xs.
Proof.
  revert acc. induction xs as [|x xs IH]; intros acc; cbn [fold_left map].
  - now rewrite app_nil_r.
  - rewrite IH. now rewrite <- app_assoc.
Qed.

Lemma hd_join (sep p : str) (ps : list str) (d : N) :
  p <> [] -> hd d (join sep (p :: ps)) = hd d p.
Proof.
  intros Hp. destruct p as [|c p]; [congruence|].
  now destruct ps.
Qed.

(** The lines of the narrative, in order: the site line, the alert line
    followed by one line per incident, the maintenance line, the case line;
    each group is present when its list is not empty. *)
Lemma additional_context_lines
    (cell_sites : list CellSite.t) (active_incidents : list ActiveIncident.t)
    (scheduled_maintenance : list ScheduledMaintenance.t)
    (similar_cases : list SimilarCase.t) :
  let parts :=
    (if nonempty cell_sites then [sites_line cell_sites] else [])
    ++ (if nonempty active_incidents
        then incidents_line active_incidents
             :: map incident_line active_incidents
        else [])
    ++ (if nonempty scheduled_maintenance then [maintenance_line] else [])
    ++ (if nonempty similar_cases then [cases_line similar_cases] else []) in
  analyze_additional_context cell_sites active_incidents
    scheduled_maintenance similar_cases
  = if nonempty parts then join [10%N] parts else NO_CONTEXT.
Proof.
  unfold analyze_additional_context.
  destruct (nonempty cell_sites); destruct (nonempty active_incidents);
    destruct (nonempty scheduled_maintenance);
    destruct (nonempty similar_cases);
    rewrite ?fold_left_snoc; cbn [app]; rewrite <- ?app_assoc; cbn [app];
    rewrite ?app_nil_r; reflexivity.
Qed.

(** X4.  The narrative is the sentence for no context exactly when the four
    lists it is built from are all empty. *)
Theorem no_context_iff_nothing_found
    (cell_sites : list CellSite.t) (active_incidents : list ActiveIncident.t)
    (scheduled_maintenance : list ScheduledMaintenance.t)
    (similar_cases : list SimilarCase.t) :
  analyze_additional_context cell_sites active_incidents
    scheduled_maintenance similar_cases = NO_CONTEXT
  <-> cell_sites = [] /\ active_incidents = []
      /\ scheduled_maintenance = [] /\ similar_cases = [].
Proof.
  split.
  - rewrite additional_context_lines. cbv zeta. intros H.
    assert (Hhd : forall p ps, p <> [] -> hd 0%N p <> 78%N ->
                    join [10%N] (p :: ps) <> NO_CONTEXT).
    { intros p ps Hp Hh E. apply (f_equal (hd 0%N)) in E.
      rewrite hd_join in E by exact Hp. apply Hh. rewrite E.
      vm_compute. reflexivity. }
    destruct cell_sites as [|s cs].
    2:{ exfalso. cbn [nonempty app] in H. revert H. apply Hhd.
        - intros E. apply (f_equal (@List.length _)) in E. discriminate.
        - vm_compute. discriminate. }
    destruct active_incidents as [|i ai].
    2:{ exfalso. cbn [nonempty app] in H. revert H. apply Hhd.
        - intros E. apply (f_equal (@List.length _)) in E. discriminate.
        - vm_compute. discriminate. }
    destruct scheduled_maintenance as [|m sm].
    2:{ exfalso. cbn [nonempty app] in H. revert H. apply Hhd.
        - intros E. apply (f_equal (@List.length _)) in E. discriminate.
        - vm_compute. discriminate. }
    destruct similar_cases as [|c sc]; [tauto|].
    exfalso. cbn [nonempty app] in H. revert H. apply Hhd.
    + apply cases_line_inhabited.
    + vm_compute. discriminate.
  - intros (-> & -> & -> & ->). reflexivity.
Qed.

(** X6.  An incident line holds at most 150 characters of the description
    and always ends with an ellipsis, also when the description is short enough
    to be shown in full. *)
Theorem incident_line_always_ellipsis (inc : ActiveIncident.t) :
  List.length (incident_line inc)
  = 9 + List.length (ActiveIncident.incident_id inc)
    + Nat.min 150 (List.length (ActiveIncident.description inc))
  /\ (exists pre, incident_line inc = pre ++ u "...")
  /\ (List.length (ActiveIncident.description inc) <= 150 ->
      incident_line inc
      = u "  - " ++ ActiveIncident.incident_id inc ++ u ": "
          ++ ActiveIncident.description inc ++ u "...")
  /\ (150 < List.length (ActiveIncident.description inc) ->
      incident_line inc
      <> u "  - " ++ ActiveIncident.incident_id inc ++ u ": "
           ++ ActiveIncident.description inc ++ u "...").
Proof.
  unfold incident_line.
  assert (Hlen : forall d : str,
            List.length (u "  - " ++ ActiveIncident.incident_id inc ++ u ": "
                           ++ d ++ u "...")
            = 9 + List.length (ActiveIncident.incident_id inc)
              + List.length d).
  { intros d. rewrite !length_app.
    change (List.length (u "  - ")) with 4.
    change (List.length (u ": ")) with 2.
    change (List.length (u "...")) with 3. lia. }
  split; [|split; [|split]].
  - rewrite Hlen, length_firstn. reflexivity.
  - exists (u "  - " ++ ActiveIncident.incident_id inc ++ u ": "
              ++ firstn 150 (ActiveIncident.description inc)).
    now rewrite <- !app_assoc.
  - intros Hle. now rewrite firstn_all2.
  - intros Hlt E. apply (f_equal (@List.length _)) in E.
    rewrite !Hlen, length_firstn in E. lia.
Qed.

(** Each location type selects exactly one case of the catalog. *)
Lemma analyze_similar_cases_single (location_type : str) :
  In location_type [u "urban"; u "industrial"; u "highway"; u "underground"] ->
  exists c,
    analyze_similar_cases location_type = [c]
    /\ In c SIMILAR_CASES_DB
    /\ SimilarCase.location_type c = location_type.
Proof.
  cbn [In]. intros [<- | [<- | [<- | [<- | []]]]].
  - exists (nth 0 SIMILAR_CASES_DB (SimilarCase.mk [] [] [] [] 0 0 [])).
    split; [vm_compute; reflexivity|].
    split; [left; reflexivity | reflexivity].
  - exists (nth 1 SIMILAR_CASES_DB (SimilarCase.mk [] [] [] [] 0 0 [])).
    split; [vm_compute; reflexivity|].
    split; [right; left; reflexivity | reflexivity].
  - exists (nth 2 SIMILAR_CASES_DB (SimilarCase.mk [] [] [] [] 0 0 [])).
    split; [vm_compute; reflexivity|].
    split; [right; right; left; reflexivity | reflexivity].
  - exists (nth 3 SIMILAR_CASES_DB (SimilarCase.mk [] [] [] [] 0 0 [])).
    split; [vm_compute; reflexivity|].
    split; [right; right; right; left; reflexivity | reflexivity].
Qed.

Section Coverage.

Variable lower : str -> str.
Variable boot : nat -> datetime.

(** X7.  The case list of a diagnostic response holds exactly one case, a
    case of the catalog whose location type is the classified one: cutting
    the list at three never drops a case. *)
Theorem diagnostic_returns_one_case
    (now : datetime) (request : DiagnosticRequest.t) :
  exists r c,
    analyze_diagnostic lower boot now request = Ok r
    /\ DiagnosticResponse.similar_cases r = [c]
    /\ In c SIMILAR_CASES_DB
    /\ SimilarCase.location_type c
       = analyze_location_type (lower (DiagnosticRequest.location request)).
Proof.
  destruct (analyze_diagnostic_ok lower boot now request)
    as (cell_sites & products & _ & _ & Hr).
  destruct (analyze_similar_cases_single _
              (analyze_location_type_range
                 (lower (DiagnosticRequest.location request))))
    as (c & Hc & Hin & Hlt).
  eexists _, c. split; [exact Hr|].
  cbn [DiagnosticResponse.similar_cases]. rewrite Hc.
  split; [reflexivity|]. now split.
Qed.

(** X5.  The narrative of a diagnostic response is never the sentence for no
    context: it is the lines below joined by newlines, the last of which is
    the case line, which always reports one case. *)
Theorem diagnostic_narrative_lines
    (now : datetime) (request : DiagnosticRequest.t) :
  exists r,
    analyze_diagnostic lower boot now request = Ok r
    /\ DiagnosticResponse.additional_context r
       = join [10%N]
           ((if nonempty (DiagnosticResponse.cell_sites_nearby r)
             then [sites_line (DiagnosticResponse.cell_sites_nearby r)]
             else [])
            ++ (if nonempty (DiagnosticResponse.active_incidents r)
                then incidents_line (DiagnosticResponse.active_incidents r)
                     :: map incident_line
                          (DiagnosticResponse.active_incidents r)
                else [])
            ++ (if nonempty (DiagnosticResponse.scheduled_maintenance r)
                then [maintenance_line] else [])
            ++ [u "📚 Se encontraron 1 casos similares resueltos con éxito"]).
Proof.
  destruct (analyze_diagnostic_ok lower boot now request)
    as (cell_sites & products & _ & _ & Hr).
  destruct (analyze_similar_cases_single _
              (analyze_location_type_range
                 (lower (DiagnosticRequest.location request))))
    as (c & Hc & _).
  eexists. split; [exact Hr|].
  cbn [DiagnosticResponse.additional_context
       DiagnosticResponse.cell_sites_nearby
       DiagnosticResponse.active_incidents
       DiagnosticResponse.scheduled_maintenance].
  rewrite additional_context_lines, Hc. cbv zeta. cbn [nonempty].
  change (cases_line [c])
    with (u "📚 Se encontraron " ++ str_of_nat 1
            ++ u " casos similares resueltos con éxito").
  replace (u "📚 Se encontraron " ++ str_of_nat 1
             ++ u " casos similares resueltos con éxito")
    with (u "📚 Se encontraron 1 casos similares resueltos con éxito")
    by (vm_compute; reflexivity).
  generalize (u "📚 Se encontraron 1 casos similares resueltos con éxito").
  intros line.
  destruct (nonempty cell_sites);
    destruct (nonempty (analyze_active_incidents lower boot _));
    destruct (nonempty (analyze_scheduled_maintenance boot now));
    reflexivity.
Qed.

(** X8.  Active maintenance depends on how long the process has been up: the
    window of the catalog opens twenty hours before the module was loaded
    and closes four hours after.  The query with [active_only] returns
    nothing outside these bounds and the whole catalog inside them, and the
    diagnostic response reports the same list. *)
Theorem maintenance_window_bounds
    (now : datetime) (request : DiagnosticRequest.t) :
  (get_scheduled_maintenance boot now true = []
   <-> (now < boot 4 - timedelta_hours 20
        \/ boot 5 + timedelta_hours 4 < now)%Z)
  /\ (get_scheduled_maintenance boot now true = SCHEDULED_MAINTENANCE_DB boot
      <-> (boot 4 - timedelta_hours 20 <= now
           <= boot 5 + timedelta_hours 4)%Z)
  /\ exists r,
       analyze_diagnostic lower boot now request = Ok r
       /\ DiagnosticResponse.scheduled_maintenance r
          = get_scheduled_maintenance boot now true.
Proof.
  split; [|split].
  - unfold get_scheduled_maintenance, SCHEDULED_MAINTENANCE_DB.
    cbn [filter]. unfold is_active.
    cbn [ScheduledMaintenance.scheduled_start
         ScheduledMaintenance.scheduled_end].
    destruct (Z.leb_spec (boot 4 - timedelta_hours 20) now);
      destruct (Z.leb_spec now (boot 5 + timedelta_hours 4));
      cbn [andb]; split; intros H1; try discriminate; try reflexivity; lia.
  - unfold get_scheduled_maintenance, SCHEDULED_MAINTENANCE_DB.
    cbn [filter]. unfold is_active.
    cbn [ScheduledMaintenance.scheduled_start
         ScheduledMaintenance.scheduled_end].
    destruct (Z.leb_spec (boot 4 - timedelta_hours 20) now);
      destruct (Z.leb_spec now (boot 5 + timedelta_hours 4));
      cbn [andb]; split; intros H1; try discriminate; try reflexivity; lia.
  - destruct (analyze_diagnostic_ok lower boot now request)
      as (cell_sites & products & _ & _ & Hr).
    eexists. split; [exact Hr | reflexivity].
Qed.


(** X10.  The product query returns products of the catalog only; with an absent
    or empty category it returns the whole catalog; and a query for the
    category of a product of the catalog, as stored, returns that product. *)
Theorem products_found_by_own_category :
  get_kenmei_products lower None = KENMEI_PRODUCTS_DB
  /\ get_kenmei_products lower (Some []) = KENMEI_PRODUCTS_DB
  /\ (forall category,
        incl (get_kenmei_products lower category) KENMEI_PRODUCTS_DB)
  /\ (forall p, In p KENMEI_PRODUCTS_DB ->
        In p (get_kenmei_products lower (Some (KenmeiProduct.category p)))).
Proof.
  split; [reflexivity|]. split; [reflexivity|]. split.
  - intros [[|c category]|]; cbn [get_kenmei_products];
      try apply incl_refl. apply incl_filter.
  - intros p Hp. unfold get_kenmei_products.
    destruct (KenmeiProduct.category p) as [|c category] eqn:E; [exact Hp|].
    apply filter_In. split; [exact Hp|]. rewrite E. apply str_in_refl.
Qed.

(** X11.  A category that contains another one, after lowering, selects no product
    that the other does not select. *)
Theorem products_narrower_category (wide narrow : str) :
  narrow <> [] ->
  substring (lower wide) (lower narrow) ->
  incl (get_kenmei_products lower (Some narrow))
       (get_kenmei_products lower (Some wide)).
Proof.
  intros Hne Hsub p Hp. unfold get_kenmei_products in *.
  destruct narrow as [|c narrow]; [congruence|].
  apply filter_In in Hp as [Hin Hp].
  destruct wide as [|d wide]; [exact Hin|].
  apply filter_In. split; [exact Hin|].
  apply str_in_spec. apply str_in_spec in Hp.
  exact (substring_trans _ _ _ Hsub Hp).
Qed.

(** X12.  A location that contains another one, after lowering, selects no
    incident that the other does not select, and a severity filter only
    removes incidents. *)
Theorem incidents_narrower_filters (wide narrow : str)
    (severity : option str) :
  narrow <> [] ->
  substring (lower wide) (lower narrow) ->
  incl (get_active_incidents lower boot (Some narrow) severity)
       (get_active_incidents lower boot (Some wide) None).
Proof.
  intros Hne Hsub inc Hinc. unfold get_active_incidents in *.
  cbn [filter_by_severity].
  assert (Hloc : In inc (filter_by_location lower (Some narrow)
                           (ACTIVE_INCIDENTS_DB boot))).
  { destruct severity as [[|d sev]|]; cbn [filter_by_severity] in Hinc;
      try exact Hinc. now apply filter_In in Hinc as [Hinc _]. }
  clear Hinc. destruct narrow as [|c narrow]; [congruence|].
  cbn [filter_by_location] in Hloc. apply filter_In in Hloc as [Hin Hloc].
  destruct wide as [|d wide]; [exact Hin|].
  cbn [filter_by_location]. apply filter_In. split; [exact Hin|].
  apply str_in_spec. apply str_in_spec in Hloc.
  exact (substring_trans _ _ _ Hsub Hloc).
Qed.

(** X1.  When site lookup succeeds for a location, the diagnostic endpoint
    returns exactly the same sites for it, and reports that context was
    found. *)
Theorem diagnostic_sites_equal_lookup
    (now : datetime) (request : DiagnosticRequest.t)
    (bucket : list CellSite.t) :
  get_cell_sites lower (DiagnosticRequest.location request) = Ok bucket ->
  exists r,
    analyze_diagnostic lower boot now request = Ok r
    /\ DiagnosticResponse.cell_sites_nearby r = bucket
    /\ DiagnosticResponse.context_found r = true.
Proof.
  intros Hget.
  destruct (analyze_diagnostic_ok lower boot now request)
    as (cell_sites & products & Hcs & _ & Hr).
  eexists. split; [exact Hr|].
  cbn [DiagnosticResponse.cell_sites_nearby DiagnosticResponse.context_found].
  clear Hr. unfold get_cell_sites in Hget. revert Hget Hcs.
  generalize (lower (DiagnosticRequest.location request)). intros key.
  destruct (contains_key CELL_SITES_DB key) eqn:Hk; [|discriminate].
  cbn [negb]. apply contains_key_in in Hk.
  cbn [keys map fst CELL_SITES_DB In] in Hk.
  destruct Hk as [<- | [<- | [<- | [<- | []]]]]; intros Hget Hcs;
    vm_compute in Hget; vm_compute in Hcs;
    apply Ok_inj in Hget; apply Ok_inj in Hcs; subst bucket cell_sites;
    split; reflexivity.
Qed.

(** Selecting buckets of a dict whose values share no element gives no
    element twice. *)
Lemma selected_buckets_nodup {K A B : Type} (f : A -> B)
    (d : list (K * list A)) (sel : K * list A -> bool) :
  NoDup (flat_map (fun b => map f (snd b)) d) ->
  NoDup (map f (flat_map snd (filter sel d))).
Proof.
  induction d as [|b d IH]; cbn [filter flat_map map]; [constructor|].
  intros Hnd.
  assert (Hincl : forall x, In x (map f (flat_map snd (filter sel d))) ->
                    In x (flat_map (fun b => map f (snd b)) d)).
  { intros x Hx. apply in_map_iff in Hx as (y & <- & Hy).
    apply in_flat_map in Hy as (b' & Hb' & Hy).
    apply filter_In in Hb' as [Hb' _].
    apply in_flat_map. exists b'. split; [exact Hb'|]. now apply in_map. }
  pose proof (NoDup_app_remove_l _ _ Hnd) as Hd.
  destruct (sel b); [|now apply IH].
  cbn [flat_map]. rewrite map_app. apply NoDup_app.
  - exact (NoDup_app_remove_r _ _ Hnd).
  - now apply IH.
  - intros x Hx Hx'. apply Hincl in Hx'.
    revert Hnd Hx Hx'. generalize (map f (snd b)).
    generalize (flat_map (fun b => map f (snd b)) d).
    intros l2 l1. induction l1 as [|y l1 IH1]; [intros _ []|].
    cbn [app]. intros Hnd [-> | Hx] Hx'.
    + inversion Hnd as [|? ? Hn _]; subst. apply Hn, in_or_app. now right.
    + inversion Hnd as [|? ? _ Hnd']; subst. now apply IH1.
Qed.

(** X9.  The diagnostic endpoint lists sites of the catalog only, and never
    lists a site twice. *)
Theorem diagnostic_sites_no_duplicates
    (now : datetime) (request : DiagnosticRequest.t) :
  exists r,
    analyze_diagnostic lower boot now request = Ok r
    /\ NoDup (map CellSite.site_id (DiagnosticResponse.cell_sites_nearby r))
    /\ incl (DiagnosticResponse.cell_sites_nearby r)
            (flat_map snd CELL_SITES_DB).
Proof.
  destruct (analyze_diagnostic_ok lower boot now request)
    as (cell_sites & products & Hcs & _ & Hr).
  eexists. split; [exact Hr|].
  cbn [DiagnosticResponse.cell_sites_nearby].
  rewrite analyze_cell_sites_eq in Hcs. apply Ok_inj in Hcs. subst cell_sites.
  split.
  - apply selected_buckets_nodup. vm_compute.
    repeat constructor; cbn [In]; intuition discriminate.
  - intros s Hs. apply in_flat_map in Hs as (b & Hb & Hs).
    apply filter_In in Hb as [Hb _]. apply in_flat_map. now exists b.
Qed.

(** X14.  The health check advertises the path of every handler of the route
    table, each once, and nothing else. *)
Theorem read_root_lists_every_route :
  (forall c, In (route_path c) (Root.endpoints read_root))
  /\ NoDup (Root.endpoints read_root)
  /\ List.length (Root.endpoints read_root) = 6.
Proof.
  split; [|split].
  - intros [loc | loc sev | active | cat | lt | request];
      cbn [route_path read_root Root.endpoints In].
    + left; reflexivity.
    + right; left; reflexivity.
    + do 2 right; left; reflexivity.
    + do 3 right; left; reflexivity.
    + do 4 right; left; reflexivity.
    + do 5 right; left; reflexivity.
  - vm_compute. repeat constructor; cbn [In]; intuition discriminate.
  - reflexivity.
Qed.

Section CoverageLowerEmpty.

(** The empty string has no character to lower. *)
Hypothesis lower_empty_string : lower [] = [].

(** X3.  An empty location is a key of no bucket, so site lookup raises; it
    occurs in every key and every affected area, so the diagnostic endpoint
    returns every site and every incident of the catalogs. *)
Theorem empty_location_matches_everything
    (now : datetime) (request : DiagnosticRequest.t) :
  DiagnosticRequest.location request = [] ->
  (exists detail,
     get_cell_sites lower (DiagnosticRequest.location request)
     = Raise (HTTPException 404 detail))
  /\ exists r,
       analyze_diagnostic lower boot now request = Ok r
       /\ DiagnosticResponse.cell_sites_nearby r = flat_map snd CELL_SITES_DB
       /\ DiagnosticResponse.active_incidents r = ACTIVE_INCIDENTS_DB boot
       /\ DiagnosticResponse.context_found r = true.
Proof.
  intros Hloc. split.
  - unfold get_cell_sites. rewrite Hloc, lower_empty_string.
    eexists. reflexivity.
  - destruct (analyze_diagnostic_ok lower boot now request)
      as (cell_sites & products & Hcs & _ & Hr).
    rewrite Hloc, lower_empty_string in Hcs, Hr.
    eexists. split; [exact Hr|].
    cbn [DiagnosticResponse.cell_sites_nearby
         DiagnosticResponse.active_incidents
         DiagnosticResponse.context_found].
    rewrite analyze_cell_sites_eq in Hcs. apply Ok_inj in Hcs.
    assert (Hall : cell_sites = flat_map snd CELL_SITES_DB).
    { rewrite <- Hcs. apply (f_equal (flat_map snd)).
      etransitivity; [|apply filter_true].
      apply filter_ext. intros b. now rewrite str_in_nil, orb_true_r. }
    split; [exact Hall|]. split.
    + unfold analyze_active_incidents.
      etransitivity; [|apply filter_true].
      apply filter_ext. intros inc. apply str_in_nil.
    + rewrite Hall. reflexivity.
Qed.

End CoverageLowerEmpty.

Section CoverageUncased.

Hypothesis lower_uncased :
  forall s, forallb ascii_uncased s = true -> lower s = s.

(** X2.  The incident, maintenance and case lists of a diagnostic response
    are what the query endpoints return for the request's location with no
    severity, for [active_only], and for the classified location type, the
    case list cut at three. *)
Theorem diagnostic_lists_are_query_results
    (now : datetime) (request : DiagnosticRequest.t) :
  exists r,
    analyze_diagnostic lower boot now request = Ok r
    /\ DiagnosticResponse.active_incidents r
       = get_active_incidents lower boot
           (Some (DiagnosticRequest.location request)) None
    /\ DiagnosticResponse.scheduled_maintenance r
       = get_scheduled_maintenance boot now true
    /\ DiagnosticResponse.similar_cases r
       = firstn 3
           (get_similar_cases lower
              (Some (analyze_location_type
                       (lower (DiagnosticRequest.location request))))).
Proof.
  destruct (analyze_diagnostic_ok lower boot now request)
    as (cell_sites & products & _ & _ & Hr).
  eexists. split; [exact Hr|].
  cbn [DiagnosticResponse.active_incidents
       DiagnosticResponse.scheduled_maintenance
       DiagnosticResponse.similar_cases].
  split; [|split; [reflexivity|]].
  - unfold get_active_incidents, analyze_active_incidents.
    cbn [filter_by_severity].
    destruct (DiagnosticRequest.location request) as [|c loc];
      [|reflexivity].
    cbn [filter_by_location]. rewrite (lower_uncased [] eq_refl).
    etransitivity; [|apply filter_true].
    apply filter_ext. intros inc. apply str_in_nil.
  - f_equal. unfold analyze_similar_cases, get_similar_cases.
    pose proof (analyze_location_type_range
                  (lower (DiagnosticRequest.location request))) as Hrange.
    revert Hrange.
    generalize (analyze_location_type
                  (lower (DiagnosticRequest.location request))).
    intros lt Hrange.
    assert (Hlt : lower lt = lt).
    { apply lower_uncased. cbn [In] in Hrange.
      destruct Hrange as [<- | [<- | [<- | [<- | []]]]];
        vm_compute; reflexivity. }
    assert (Hne : lt <> []).
    { cbn [In] in Hrange.
      destruct Hrange as [<- | [<- | [<- | [<- | []]]]];
        vm_compute; discriminate. }
    destruct lt as [|c lt]; [congruence|]. now rewrite Hlt.
Qed.


(** X13.  Every record of the catalogs is found by a query for its own values:
    a bucket by its key, an incident by its affected area and severity, a
    case by its location type. *)
Theorem records_found_by_own_values :
  (forall key bucket, In (key, bucket) CELL_SITES_DB ->
     get_cell_sites lower key = Ok bucket)
  /\ (forall inc, In inc (ACTIVE_INCIDENTS_DB boot) ->
        In inc (get_active_incidents lower boot
                  (Some (ActiveIncident.affected_area inc))
                  (Some (ActiveIncident.severity inc))))
  /\ (forall c, In c SIMILAR_CASES_DB ->
        In c (get_similar_cases lower (Some (SimilarCase.location_type c)))).
Proof.
  split; [|split].
  - intros key bucket Hin.
    assert (Hkey : lower key = key).
    { apply lower_uncased, cell_site_keys_uncased. unfold keys.
      change key with (fst (key, bucket)). now apply in_map. }
    unfold get_cell_sites. rewrite Hkey.
    assert (Hk : contains_key CELL_SITES_DB key = true).
    { apply contains_key_in. unfold keys.
      change key with (fst (key, bucket)). now apply in_map. }
    rewrite Hk. cbn [negb].
    apply getitem_in; [apply cell_site_keys_nodup | exact Hin].
  - intros inc Hin. unfold get_active_incidents.
    assert (Hsev : lower (ActiveIncident.severity inc)
                   = ActiveIncident.severity inc).
    { cbn [ACTIVE_INCIDENTS_DB In] in Hin.
      destruct Hin as [<- | [<- | []]]; apply lower_uncased;
        vm_compute; reflexivity. }
    assert (Hloc : In inc (filter_by_location lower
                             (Some (ActiveIncident.affected_area inc))
                             (ACTIVE_INCIDENTS_DB boot))).
    { destruct (ActiveIncident.affected_area inc) as [|c area] eqn:E;
        [exact Hin|].
      cbn [filter_by_location]. apply filter_In. split; [exact Hin|].
      rewrite E. apply str_in_refl. }
    destruct (ActiveIncident.severity inc) as [|c sev] eqn:E; [exact Hloc|].
    cbn [filter_by_severity]. apply filter_In. split; [exact Hloc|].
    rewrite E, Hsev. apply str_eqb_refl.
  - intros c Hin. unfold get_similar_cases. apply sort_desc_in.
    assert (Hlt : lower (SimilarCase.location_type c)
                  = SimilarCase.location_type c).
    { cbn [SIMILAR_CASES_DB In] in Hin.
      destruct Hin as [<- | [<- | [<- | [<- | []]]]]; apply lower_uncased;
        vm_compute; reflexivity. }
    destruct (SimilarCase.location_type c) as [|d lt] eqn:E; [exact Hin|].
    apply filter_In. split; [exact Hin|].
    rewrite E, Hlt. apply str_eqb_refl.
Qed.

End CoverageUncased.
End Coverage.

(** * Instances of the further properties that have a precondition *)

Lemma products_AI_Products_within_AI :
  incl (get_kenmei_products lower_latin1 (Some (u "AI Products")))
       (get_kenmei_products lower_latin1 (Some (u "ai"))).
Proof.
  apply (products_narrower_category lower_latin1 (u "ai") (u "AI Products")).
  - vm_compute. discriminate.
  - apply str_in_spec. vm_compute. reflexivity.
Defined.

Lemma incidents_Valencia_Centro_within_valencia :
  incl (get_active_incidents lower_latin1 boot0
          (Some (u "Valencia Centro")) (Some (u "high")))
       (get_active_incidents lower_latin1 boot0 (Some (u "valencia")) None).
Proof.
  apply (incidents_narrower_filters lower_latin1 boot0
           (u "valencia") (u "Valencia Centro") (Some (u "high"))).
  - vm_compute. discriminate.
  - apply str_in_spec. vm_compute. reflexivity.
Defined.

Lemma diagnostic_sites_equal_lookup_Madrid :
  exists r,
    analyze_diagnostic lower_latin1 boot0 (boot0 0)
      (req "Madrid" "speed" []) = Ok r
    /\ DiagnosticResponse.cell_sites_nearby r
       = nth 2 (map snd CELL_SITES_DB) []
    /\ DiagnosticResponse.context_found r = true.
Proof.
  apply (diagnostic_sites_equal_lookup lower_latin1 boot0 (boot0 0)
           (req "Madrid" "speed" [])).
  vm_compute. reflexivity.
Defined.

Lemma empty_location_at_load_time :
  (exists detail,
     get_cell_sites lower_latin1 [] = Raise (HTTPException 404 detail))
  /\ exists r,
       analyze_diagnostic lower_latin1 boot0 (boot0 0) (req "" "speed" [])
       = Ok r
       /\ DiagnosticResponse.cell_sites_nearby r = flat_map snd CELL_SITES_DB
       /\ DiagnosticResponse.active_incidents r = ACTIVE_INCIDENTS_DB boot0
       /\ DiagnosticResponse.context_found r = true.
Proof.
  exact (empty_location_matches_everything lower_latin1 boot0 eq_refl
           (boot0 0) (req "" "speed" []) eq_refl).
Defined.

Lemma diagnostic_lists_for_Paterna :
  exists r,
    analyze_diagnostic lower_latin1 boot0 (boot0 0)
      (req "Poligono de Paterna" "coverage" []) = Ok r
    /\ DiagnosticResponse.active_incidents r
       = get_active_incidents lower_latin1 boot0
           (Some (u "Poligono de Paterna")) None
    /\ DiagnosticResponse.scheduled_maintenance r
       = get_scheduled_maintenance boot0 (boot0 0) true
    /\ DiagnosticResponse.similar_cases r
       = firstn 3
           (get_similar_cases lower_latin1
              (Some (analyze_location_type
                       (lower_latin1 (u "Poligono de Paterna"))))).
Proof.
  exact (diagnostic_lists_are_query_results lower_latin1 boot0
           lower_latin1_uncased (boot0 0)
           (req "Poligono de Paterna" "coverage" [])).
Defined.

Lemma barcelona_bucket_found_by_its_key :
  get_cell_sites lower_latin1 (u "barcelona")
  = Ok (nth 3 (map snd CELL_SITES_DB) []).
Proof.
  apply (proj1 (records_found_by_own_values lower_latin1 boot0
                  lower_latin1_uncased)).
  do 3 right. left. reflexivity.
Defined.
